(** * The Mastra provider adapter of Halo

    A shallow embedding of [src/features/common/ai/providers/mastra.js]:
    the cached Teaching Assistant agent and its credential, the generation
    call, the conversion of one generation result into a paced stream of
    server-sent events, key validation, and the streaming facade.

    Conventions of the model.
    - A JavaScript string is a [string]; each character stands for one
      UTF-16 code unit below 256, so [String.length] is [text.length].
    - A JavaScript number is an integer of magnitude below 2^53 (no
      fractions, no NaN, no infinities).
    - An [await] is a sequential call: interleavings of concurrent callers
      are outside the model.
    - What the module gets from its environment (dynamic imports, the MCP
      client, the file system, the agent runtime, the clock, [fetch]) is
      read from a [World] of oracles, each asked with the trace of effects
      performed so far.
    - A thrown value is an [Error] object with a name and a message, or
      any other value: a promise may reject with [null], [undefined] or a
      plain object. On the console an [Error] object is written as its
      name and message, another value as [String(value)]. *)

From Stdlib Require Import String Ascii Strings.Byte List ZArith NArith Arith Lia Bool QArith.
From Stdlib Require Import Numbers.DecimalString.
From Equations Require Import Equations.
Import ListNotations.

Set Warnings "-register-all".
Local Open Scope string_scope.
Local Open Scope nat_scope.

(** ** JavaScript values *)

Module Js.

Inductive JsVal : Type :=
| JUndefined
| JNull
| JBool (b : bool)
| JNum (n : Z)
| JStr (s : string)
| JArr (xs : list JsVal)
| JObj (props : list (string * JsVal)).

(** ToBoolean: [undefined], [null], [false], [0] and the empty string are
    falsy, everything else is truthy. *)
Definition truthy (v : JsVal) : bool :=
  match v with
  | JUndefined | JNull => false
  | JBool b => b
  | JNum n => negb (n =? 0)%Z
  | JStr s => negb (s =? EmptyString)%string
  | JArr _ | JObj _ => true
  end.

Inductive JsType := TUndefined | TObject | TBoolean | TNumber | TString.

Definition typeof (v : JsVal) : JsType :=
  match v with
  | JUndefined => TUndefined
  | JNull => TObject
  | JBool _ => TBoolean
  | JNum _ => TNumber
  | JStr _ => TString
  | JArr _ | JObj _ => TObject
  end.

Definition is_string (v : JsVal) : bool :=
  match typeof v with TString => true | _ => false end.

(** [a === b] on primitives. Two object or array values are two
    references here, never the same one. *)
Definition strict_eq (a b : JsVal) : bool :=
  match a, b with
  | JUndefined, JUndefined => true
  | JNull, JNull => true
  | JBool x, JBool y => Bool.eqb x y
  | JNum x, JNum y => (x =? y)%Z
  | JStr x, JStr y => (x =? y)%string
  | _, _ => false
  end.

(** [a || b] *)
Definition js_or (a b : JsVal) : JsVal := if truthy a then a else b.

(** Property read [v.k] on a value that is neither [undefined] nor [null]
    ([None] is the TypeError of reading a property of those two). The
    primitives and arrays have no own property of the names read in this
    module ([error], [message]). *)
Fixpoint lookup (k : string) (props : list (string * JsVal)) : JsVal :=
  match props with
  | [] => JUndefined
  | (k', v) :: rest => if (k =? k')%string then v else lookup k rest
  end.

Definition get_prop (v : JsVal) (k : string) : option JsVal :=
  match v with
  | JUndefined | JNull => None
  | JObj props => Some (lookup k props)
  | _ => Some JUndefined
  end.

(** Optional chaining [v?.k]. *)
Definition get_prop_opt (v : JsVal) (k : string) : JsVal :=
  match get_prop v k with
  | Some x => x
  | None => JUndefined
  end.

(** *** Strings *)

Definition chr (n : nat) : string := String (ascii_of_nat n) EmptyString.
Definition dquote : string := chr 34.
Definition backslash : string := chr 92.
Definition nl : string := chr 10.

Definition Z_to_string (z : Z) : string := NilZero.string_of_int (Z.to_int z).

Fixpoint join (sep : string) (parts : list string) : string :=
  match parts with
  | [] => EmptyString
  | [p] => p
  | p :: rest => p ++ sep ++ join sep rest
  end.

(** [s.startsWith(p)] *)
Definition startsWith (s p : string) : bool := String.prefix p s.

(** [s.substring(b, e)] and [s.slice(b, e)] for integer arguments
    [0 <= b <= e]: the code units from [b] up to, not including, [e], cut
    at the end of the string. *)
Definition slice (s : string) (b e : nat) : string :=
  let len := String.length s in
  substring (Nat.min b len) (Nat.min e len - Nat.min b len) s.

(** ToString, as a template literal or a string concatenation applies it. *)
Fixpoint to_string (v : JsVal) : string :=
  match v with
  | JUndefined => "undefined"
  | JNull => "null"
  | JBool true => "true"
  | JBool false => "false"
  | JNum n => Z_to_string n
  | JStr s => s
  | JArr xs =>
      join "," (map (fun x => match x with
                              | JUndefined | JNull => EmptyString
                              | _ => to_string x
                              end) xs)
  | JObj _ => "[object Object]"
  end.

(** *** JSON.stringify *)

Definition hex_digit (n : nat) : string :=
  match n with
  | 0 => "0" | 1 => "1" | 2 => "2" | 3 => "3" | 4 => "4" | 5 => "5"
  | 6 => "6" | 7 => "7" | 8 => "8" | 9 => "9" | 10 => "a" | 11 => "b"
  | 12 => "c" | 13 => "d" | 14 => "e" | _ => "f"
  end.

Definition quote_char (c : ascii) : string :=
  let n := nat_of_ascii c in
  if n =? 34 then backslash ++ dquote
  else if n =? 92 then backslash ++ backslash
  else if n =? 8 then backslash ++ "b"
  else if n =? 12 then backslash ++ "f"
  else if n =? 10 then backslash ++ "n"
  else if n =? 13 then backslash ++ "r"
  else if n =? 9 then backslash ++ "t"
  else if n <? 32 then backslash ++ "u00" ++ hex_digit (n / 16) ++ hex_digit (n mod 16)
  else String c EmptyString.

Fixpoint quote_body (s : string) : string :=
  match s with
  | EmptyString => EmptyString
  | String c rest => quote_char c ++ quote_body rest
  end.

Definition quote (s : string) : string := dquote ++ quote_body s ++ dquote.

Definition wrap (open close gap indent stepback : string) (parts : list string) : string :=
  match parts with
  | [] => open ++ close
  | _ =>
      if (gap =? EmptyString)%string
      then open ++ join "," parts ++ close
      else open ++ nl ++ indent ++ join ("," ++ nl ++ indent) parts ++ nl ++ stepback ++ close
  end.

(** [JSON.stringify(v, null, gap)] inside a value already indented by
    [indent]; [None] is the [undefined] it returns for [undefined]. *)
Fixpoint serialize (gap indent : string) (v : JsVal) {struct v} : option string :=
  match v with
  | JUndefined => None
  | JNull => Some "null"
  | JBool true => Some "true"
  | JBool false => Some "false"
  | JNum n => Some (Z_to_string n)
  | JStr s => Some (quote s)
  | JArr xs =>
      let inner := indent ++ gap in
      Some (wrap "[" "]" gap inner indent
              (map (fun x => match serialize gap inner x with
                             | Some s => s
                             | None => "null"
                             end) xs))
  | JObj props =>
      let inner := indent ++ gap in
      let colon := if (gap =? EmptyString)%string then ":" else ": " in
      Some (wrap "{" "}" gap inner indent
              ((fix members (ps : list (string * JsVal)) : list string :=
                  match ps with
                  | [] => []
                  | (k, x) :: rest =>
                      match serialize gap inner x with
                      | Some s => (quote k ++ colon ++ s) :: members rest
                      | None => members rest
                      end
                  end) props))
  end.

Definition stringify (v : JsVal) : option string := serialize EmptyString EmptyString v.
Definition stringify_indent2 (v : JsVal) : option string := serialize "  " EmptyString v.

(** An interpolation [${e}] of a value that may be [undefined]. *)
Definition interpolate (o : option string) : string :=
  match o with
  | Some s => s
  | None => "undefined"
  end.

(** [new TextEncoder().encode(s)]: UTF-8, one byte for a code unit below
    128 and two bytes for the others. *)
Definition utf8_unit (c : ascii) : list byte :=
  let n := N_of_ascii c in
  if (n <? 128)%N then [byte_of_ascii c]
  else [byte_of_ascii (ascii_of_N (192 + n / 64)); byte_of_ascii (ascii_of_N (128 + n mod 64))].

Fixpoint encode (s : string) : list byte :=
  match s with
  | EmptyString => []
  | String c rest => utf8_unit c ++ encode rest
  end.

End Js.
Import Js.

(** ** Exceptions *)

(** What a [throw] or a rejected promise carries: an [Error] object, or
    any other value. *)
Inductive JsError : Type :=
| ErrorObject (name message : string)
| Thrown (value : JsVal).

Definition Error (msg : string) : JsError := ErrorObject "Error" msg.
Definition TypeError (msg : string) : JsError := ErrorObject "TypeError" msg.

(** The name of an [Error] object. *)
Definition err_name (e : JsError) : string :=
  match e with
  | ErrorObject n _ => n
  | Thrown _ => EmptyString
  end.

(** The property read [e.message] on what was caught: [None] is the
    TypeError of reading a property of [null] or [undefined]. *)
Definition read_message (e : JsError) : option JsVal :=
  match e with
  | ErrorObject _ m => Some (JStr m)
  | Thrown v => get_prop v "message"
  end.

(** [e.message] as it is written into a log line. *)
Definition err_message (e : JsError) : string :=
  match read_message e with
  | Some m => to_string m
  | None => EmptyString
  end.

Inductive Outcome (A : Type) : Type :=
| Ok (a : A)
| Throw (e : JsError).
Arguments Ok {A} a.
Arguments Throw {A} e.

(** ** The stream emitter: [createStreamFromMastraResponse] *)

Module Emitter.

(** What [agent.generate] resolves to, as far as this module reads it. An
    absent field is [JUndefined] or [None]. *)
Record ToolCall := { name : JsVal; args : JsVal; result : JsVal }.
Record Step := { toolCalls : option (list ToolCall) }.
Record GenerationResult := { text : option string; steps : option (list Step) }.

(** [{ choices: [{ delta: { content } }] }] *)
Record Chunk := { content : string }.

Definition chunk_value (c : Chunk) : JsVal :=
  JObj [("choices", JArr [JObj [("delta", JObj [("content", JStr (content c))])]])].

Definition chunkSize : nat := 50.

(** [for (let i = 0; i < text.length; i += chunkSize) chunks.push(...)],
    from the index [i] on. *)
Equations? split_text (text : string) (i : nat) : list Chunk
  by wf (String.length text - i) lt :=
  split_text text i with lt_dec i (String.length text) => {
    | left _ => {| content := slice text i (i + chunkSize) |} :: split_text text (i + chunkSize);
    | right _ => [] }.
Proof. unfold chunkSize. lia. Qed.

(** [if (response.text) { ... }] *)
Definition text_chunks (response : GenerationResult) : list Chunk :=
  match text response with
  | Some t => if truthy (JStr t) then split_text t 0 else []
  | None => []
  end.

Definition tools_header : string := nl ++ nl ++ "**Learning Tools Used:**" ++ nl.

(** [toolCall.name && toolCall.result && toolCall.result !== undefined] *)
Definition has_meaningful_result (tc : ToolCall) : bool :=
  truthy (name tc) && truthy (result tc) && negb (strict_eq (result tc) JUndefined).

(** The body of the inner loop, on the pair
    [(toolResults, hasValidToolResults)]. *)
Definition add_tool_call (acc : string * bool) (tc : ToolCall) : string * bool :=
  if has_meaningful_result tc
  then (fst acc ++ nl ++ "- " ++ to_string (name tc) ++ ": "
          ++ interpolate (stringify_indent2 (result tc)) ++ nl, true)
  else acc.

Definition add_step (acc : string * bool) (step : Step) : string * bool :=
  match toolCalls step with
  | Some calls => fold_left add_tool_call calls acc
  | None => acc
  end.

Definition tool_summary (ss : list Step) : string * bool :=
  fold_left add_step ss (tools_header, false).

(** [if (response.steps && response.steps.length > 0) { ... }] *)
Definition tool_chunks (response : GenerationResult) : list Chunk :=
  match steps response with
  | Some ss =>
      if 0 <? List.length ss
      then (let (toolResults, hasValidToolResults) := tool_summary ss in
            if hasValidToolResults then [{| content := toolResults |}] else [])
      else []
  | None => []
  end.

Definition final_chunk : Chunk := {| content := EmptyString |}.

(** The array [chunks] when the stream is created. *)
Definition build_chunks (response : GenerationResult) : list Chunk :=
  text_chunks response ++ tool_chunks response ++ [final_chunk].

(** The stream object: the closure variables [chunks] and [chunkIndex],
    what the controller has been given so far, whether it was closed, and
    the number of [setTimeout(sendChunk, 50)] callbacks not yet run. *)
Record ReadableStream := {
  chunks : list Chunk;
  chunkIndex : nat;
  queue : list (list byte);
  closed : bool;
  timers : nat
}.

Definition done_line : string := "data: [DONE]" ++ nl ++ nl.

(** [`data: ${JSON.stringify(chunk)}\n\n`], where [chunk] is
    [chunks\[i\]] ([undefined] past the end). *)
Definition data_line (c : option Chunk) : string :=
  "data: "
    ++ interpolate (stringify (match c with Some c => chunk_value c | None => JUndefined end))
    ++ nl ++ nl.

(** [controller.enqueue] and [controller.close] throw on a closed stream. *)
Definition enqueue (data : list byte) (s : ReadableStream) : Outcome ReadableStream :=
  if closed s
  then Throw (TypeError "Invalid state: Controller is already closed")
  else Ok {| chunks := chunks s; chunkIndex := chunkIndex s;
             queue := queue s ++ [data]; closed := false; timers := timers s |}.

Definition close (s : ReadableStream) : Outcome ReadableStream :=
  if closed s
  then Throw (TypeError "Invalid state: Controller is already closed")
  else Ok {| chunks := chunks s; chunkIndex := chunkIndex s;
             queue := queue s; closed := true; timers := timers s |}.

Definition setTimeout (s : ReadableStream) : ReadableStream :=
  {| chunks := chunks s; chunkIndex := chunkIndex s;
     queue := queue s; closed := closed s; timers := S (timers s) |}.

Definition next_index (s : ReadableStream) : ReadableStream :=
  {| chunks := chunks s; chunkIndex := S (chunkIndex s);
     queue := queue s; closed := closed s; timers := timers s |}.

Definition sendChunk (s : ReadableStream) : Outcome ReadableStream :=
  if chunkIndex s <? List.length (chunks s)
  then
    let chunk := nth_error (chunks s) (chunkIndex s) in
    match enqueue (encode (data_line chunk)) (next_index s) with
    | Ok s' => Ok (setTimeout s')
    | Throw e => Throw e
    end
  else
    match enqueue (encode done_line) s with
    | Ok s' => close s'
    | Throw e => Throw e
    end.

(** [new ReadableStream({ start(controller) { ...; sendChunk(); } })]:
    [start] runs while the stream is constructed. *)
Definition new_stream (cs : list Chunk) : Outcome ReadableStream :=
  sendChunk {| chunks := cs; chunkIndex := 0; queue := []; closed := false; timers := 0 |}.

Definition createStreamFromMastraResponse (response : GenerationResult)
  : Outcome ReadableStream :=
  new_stream (build_chunks response).

(** One turn of the event loop: a pending timeout runs [sendChunk]; with
    none pending nothing happens to the stream. *)
Definition fire (s : ReadableStream) : Outcome ReadableStream :=
  match timers s with
  | 0 => Ok s
  | S n =>
      sendChunk {| chunks := chunks s; chunkIndex := chunkIndex s;
                   queue := queue s; closed := closed s; timers := n |}
  end.

Fixpoint run (n : nat) (s : ReadableStream) : Outcome ReadableStream :=
  match n with
  | 0 => Ok s
  | S k => match fire s with
           | Ok s' => run k s'
           | Throw e => Throw e
           end
  end.

(** The whole life of the stream of a response after [n] timeouts. *)
Definition stream_after (n : nat) (response : GenerationResult) : Outcome ReadableStream :=
  match createStreamFromMastraResponse response with
  | Ok s => run n s
  | Throw e => Throw e
  end.

End Emitter.
Import Emitter.

(** ** The provider: module state, environment and operations *)

Module Provider.

(** *** Data *)

Definition Tool := string.
Definition ToolSet := list Tool.

Record Memory := {
  memory_ref : nat;
  storage_url : string;
  vector_url : string;
  embedder_model : string;
  embedder_key : JsVal;
  semanticRecall_topK : Z;
  semanticRecall_messageRange : Z;
  lastMessages : Z
}.

(** The agent object; [agent_ref] is its identity. The instruction text
    is a constant of the source and is not carried here. *)
Record Agent := {
  agent_ref : nat;
  agent_name : string;
  model_id : string;
  model_key : JsVal;
  tools : ToolSet;
  memory : Memory
}.

(** One part of a multimodal message content. *)
Record Part := { part_type : string; part_text : JsVal }.

Inductive Content :=
| NoContent
| TextContent (s : string)
| PartsContent (parts : list Part).

Record Message := { role : string; msg_content : Content }.

(** The [options] argument of [createMastraStream]. *)
Record StreamOptions := { resourceId : JsVal; threadId : JsVal; maxSteps : JsVal }.

Definition no_options : StreamOptions :=
  {| resourceId := JUndefined; threadId := JUndefined; maxSteps := JUndefined |}.

(** The second argument of [agent.generate]. *)
Record GenerateOptions := {
  gen_maxSteps : JsVal;
  gen_resourceId : JsVal;
  gen_threadId : JsVal;
  gen_apiKey : JsVal
}.

(** What [fetch] resolves to: [ok], [status] and the outcome of
    [response.json()]. *)
Record Response := { ok : bool; status : Z; json : Outcome JsVal }.

Record StreamResponse := { body : ReadableStream }.

Record Validation := { success : bool; error : JsVal }.

(** The argument of [createStreamingLLM]; a field left out is
    [JUndefined] or [None]. *)
Record Config := {
  cfg_apiKey : JsVal;
  cfg_model : JsVal;
  cfg_temperature : option Q;
  cfg_maxTokens : option Z;
  cfg_resourceId : JsVal;
  cfg_threadId : JsVal;
  cfg_maxSteps : JsVal;
  cfg_rest : list (string * JsVal)
}.

(** *** Effects *)

Inductive LogLevel := LogInfo | LogWarn | LogError.

(** What the module does to its environment, in the order it does it.
    [ENewMemory] stands for the constructions of lines 106-153 (store,
    vector index, embedder, memory) and [ENewAgent] for those of lines
    157-203 (model binding, agent). *)
Inductive Event :=
| EConsole (level : LogLevel) (line : string)
| EImportModules
| ENewMCPClient
| EGetTools
| EMkdir (dir : string)
| ENewMemory (url : string) (key : JsVal)
| ENewAgent (key : JsVal) (ts : ToolSet)
| EGenerate (agent : nat) (messages : list Message) (options : GenerateOptions)
| EFetch (url : string) (authorization : string).

Definition Trace := list Event.

(** The environment. Every oracle sees the trace up to its call: the
    dynamic imports, the constructors, [mcpClient.getTools()],
    [os.tmpdir()], [path.join], the two [fs] calls, [agent.generate],
    [Date.now()] and [fetch] with its URL and [Authorization] header. *)
Record World := {
  import_modules : Trace -> Outcome unit;
  new_MCPClient : Trace -> Outcome unit;
  getTools : Trace -> Outcome ToolSet;
  tmpdir : string;
  path_join : string -> string -> string;
  existsSync : Trace -> string -> bool;
  mkdirSync : Trace -> string -> Outcome unit;
  new_Memory : Trace -> Outcome unit;
  new_Agent : Trace -> Outcome unit;
  generate : Trace -> Agent -> list Message -> GenerateOptions -> Outcome GenerationResult;
  Date_now : Trace -> Z;
  fetch : Trace -> string -> string -> Outcome Response
}.

(** The module-level variables ([mastraModules] is [true] once the
    modules are loaded, [mcpClient] holds the identity of the client),
    [process.env.OPENAI_API_KEY], the allocator of object identities and
    the trace. *)
Record State := {
  teachingAssistantAgent : option Agent;
  mastraModules : bool;
  mcpClient : option nat;
  currentApiKey : JsVal;
  OPENAI_API_KEY : option string;
  next_ref : nat;
  trace : Trace
}.

Definition initial : State :=
  {| teachingAssistantAgent := None; mastraModules := false; mcpClient := None;
     currentApiKey := JNull; OPENAI_API_KEY := None; next_ref := 0; trace := [] |}.

Definition set_agent (a : option Agent) (st : State) : State :=
  {| teachingAssistantAgent := a; mastraModules := mastraModules st;
     mcpClient := mcpClient st; currentApiKey := currentApiKey st;
     OPENAI_API_KEY := OPENAI_API_KEY st; next_ref := next_ref st; trace := trace st |}.

Definition set_modules (b : bool) (st : State) : State :=
  {| teachingAssistantAgent := teachingAssistantAgent st; mastraModules := b;
     mcpClient := mcpClient st; currentApiKey := currentApiKey st;
     OPENAI_API_KEY := OPENAI_API_KEY st; next_ref := next_ref st; trace := trace st |}.

Definition set_client (c : option nat) (st : State) : State :=
  {| teachingAssistantAgent := teachingAssistantAgent st; mastraModules := mastraModules st;
     mcpClient := c; currentApiKey := currentApiKey st;
     OPENAI_API_KEY := OPENAI_API_KEY st; next_ref := next_ref st; trace := trace st |}.

Definition set_key (k : JsVal) (st : State) : State :=
  {| teachingAssistantAgent := teachingAssistantAgent st; mastraModules := mastraModules st;
     mcpClient := mcpClient st; currentApiKey := k;
     OPENAI_API_KEY := OPENAI_API_KEY st; next_ref := next_ref st; trace := trace st |}.

Definition set_env (v : string) (st : State) : State :=
  {| teachingAssistantAgent := teachingAssistantAgent st; mastraModules := mastraModules st;
     mcpClient := mcpClient st; currentApiKey := currentApiKey st;
     OPENAI_API_KEY := Some v; next_ref := next_ref st; trace := trace st |}.

Definition bump_ref (st : State) : State :=
  {| teachingAssistantAgent := teachingAssistantAgent st; mastraModules := mastraModules st;
     mcpClient := mcpClient st; currentApiKey := currentApiKey st;
     OPENAI_API_KEY := OPENAI_API_KEY st; next_ref := S (next_ref st); trace := trace st |}.

Definition record (e : Event) (st : State) : State :=
  {| teachingAssistantAgent := teachingAssistantAgent st; mastraModules := mastraModules st;
     mcpClient := mcpClient st; currentApiKey := currentApiKey st;
     OPENAI_API_KEY := OPENAI_API_KEY st; next_ref := next_ref st;
     trace := (trace st ++ [e])%list |}.

(** A computation: from a state to an outcome and the state it leaves.
    What was written before a [throw] stays written. *)
Definition M (A : Type) : Type := State -> Outcome A * State.

Definition ret {A} (a : A) : M A := fun st => (Ok a, st).
Definition throw {A} (e : JsError) : M A := fun st => (Throw e, st).

Definition bind {A B} (c : M A) (k : A -> M B) : M B :=
  fun st => match c st with
            | (Ok a, st') => k a st'
            | (Throw e, st') => (Throw e, st')
            end.

Definition try_catch {A} (c : M A) (handler : JsError -> M A) : M A :=
  fun st => match c st with
            | (Ok a, st') => (Ok a, st')
            | (Throw e, st') => handler e st'
            end.

Definition get : M State := fun st => (Ok st, st).
Definition modify (f : State -> State) : M unit := fun st => (Ok tt, f st).
Definition lift {A} (o : Outcome A) : M A := fun st => (o, st).

Notation "x <- c ;; k" := (bind c (fun x => k))
  (at level 61, c at next level, right associativity).
Notation "c ;; k" := (bind c (fun _ => k))
  (at level 61, right associativity).

(** An effect on the environment: recorded, then answered by its oracle. *)
Definition perform {A} (e : Event) (oracle : Trace -> Outcome A) : M A :=
  fun st => (oracle (trace st), record e st).

Definition console (level : LogLevel) (line : string) : M unit :=
  modify (record (EConsole level line)).

Definition fresh : M nat :=
  fun st => (Ok (next_ref st), bump_ref st).

Definition when (b : bool) (c : M unit) : M unit := if b then c else ret tt.

Definition is_some {A} (o : option A) : bool :=
  match o with Some _ => true | None => false end.

(** A caught value as [console.error] prints it after the message. *)
Definition render (e : JsError) : string :=
  match e with
  | ErrorObject n m => n ++ ": " ++ m
  | Thrown v => to_string v
  end.

Section Operations.

Variable W : World.

(** *** [loadMastraModules] *)
Definition loadMastraModules : M unit :=
  st <- get ;;
  if mastraModules st then ret tt
  else
    try_catch
      (perform EImportModules (import_modules W) ;;
       modify (set_modules true) ;;
       console LogInfo "[Mastra] All modules loaded successfully" ;;
       ret tt)
      (fun error =>
         console LogError ("[Mastra] Failed to load modules: " ++ render error) ;;
         throw error).

(** [apiKey ? apiKey.substring(0, 7) + '...' : 'null'] *)
Definition key_preview (apiKey : JsVal) : Outcome string :=
  if truthy apiKey
  then match apiKey with
       | JStr s => Ok (slice s 0 7 ++ "...")
       | _ => Throw (TypeError "apiKey.substring is not a function")
       end
  else Ok "null".

(** Lines 70-81: the MCP client is made once and kept. *)
Definition ensure_client : M unit :=
  st <- get ;;
  when (negb (is_some (mcpClient st)))
       (perform ENewMCPClient (new_MCPClient W) ;;
        c <- fresh ;;
        modify (set_client (Some c))).

(** Lines 83-90: [courseTools] starts as the empty array and takes the
    tools of the server unless [getTools] throws. The handler reads
    [mcpError.message] to build the warning (line 89): on a rejection with
    [null] or [undefined] that read throws, before anything is logged, and
    the TypeError leaves the inner [try]. *)
Definition obtain_tools : M ToolSet :=
  try_catch
    (ts <- perform EGetTools (getTools W) ;;
     console LogInfo "[Mastra] Successfully connected to MCP course server" ;;
     ret ts)
    (fun mcpError =>
       match read_message mcpError with
       | Some _ =>
           console LogWarn
             ("[Mastra] Failed to connect to MCP server, continuing without course tools: "
                ++ err_message mcpError) ;;
           ret []
       | None =>
           throw (TypeError ("Cannot read properties of " ++ render mcpError
                               ++ " (reading 'message')"))
       end).

(** Lines 92-153: the memory over a database file in the temp directory. *)
Definition open_memory (apiKey : JsVal) : M Memory :=
  let userDataPath := path_join W (tmpdir W) "halo-mastra" in
  st <- get ;;
  when (negb (existsSync W (trace st) userDataPath))
       (perform (EMkdir userDataPath) (fun t => mkdirSync W t userDataPath)) ;;
  let memoryDbPath := path_join W userDataPath "teaching-assistant-memory.db" in
  console LogInfo ("[Mastra] Using memory database at: " ++ memoryDbPath) ;;
  perform (ENewMemory ("file:" ++ memoryDbPath) apiKey) (new_Memory W) ;;
  m <- fresh ;;
  ret {| memory_ref := m;
         storage_url := "file:" ++ memoryDbPath;
         vector_url := "file:" ++ memoryDbPath;
         embedder_model := "text-embedding-3-small";
         embedder_key := apiKey;
         semanticRecall_topK := 5;
         semanticRecall_messageRange := 3;
         lastMessages := 15 |}.

(** Lines 155-208: the agent is constructed, cached with its credential
    and returned. *)
Definition construct_agent (apiKey : JsVal) (courseTools : ToolSet) (memory : Memory)
  : M Agent :=
  preview <- lift (key_preview apiKey) ;;
  console LogInfo ("[Mastra] Creating agent with OpenAI model using API key: " ++ preview) ;;
  perform (ENewAgent apiKey courseTools) (new_Agent W) ;;
  r <- fresh ;;
  let agent :=
    {| agent_ref := r;
       agent_name := "Teaching Assistant";
       model_id := "gpt-4o";
       model_key := apiKey;
       tools := courseTools;
       memory := memory |} in
  modify (set_agent (Some agent)) ;;
  modify (set_key apiKey) ;;
  console LogInfo "[Mastra] Teaching Assistant agent initialized successfully" ;;
  ret agent.

(** The body of the [try] of [initializeTeachingAssistant], lines 63-208. *)
Definition build_agent (apiKey : JsVal) : M Agent :=
  modify (set_env (to_string apiKey)) ;;
  loadMastraModules ;;
  ensure_client ;;
  courseTools <- obtain_tools ;;
  memory <- open_memory apiKey ;;
  construct_agent apiKey courseTools memory.

(** The [try] with its [catch], lines 63-213. *)
Definition build_or_fail (apiKey : JsVal) : M Agent :=
  try_catch (build_agent apiKey)
    (fun error =>
       console LogError
         ("[Mastra] Failed to initialize Teaching Assistant agent: " ++ render error) ;;
       throw error).

(** *** [initializeTeachingAssistant] *)
Definition initializeTeachingAssistant (apiKey : JsVal) : M Agent :=
  preview <- lift (key_preview apiKey) ;;
  console LogInfo ("[Mastra] initializeTeachingAssistant called with API key: " ++ preview) ;;
  st <- get ;;
  when (is_some (teachingAssistantAgent st) && negb (strict_eq (currentApiKey st) apiKey))
       (console LogInfo "[Mastra] API key changed, reinitializing Teaching Assistant agent" ;;
        modify (set_agent None) ;;
        modify (set_key JNull)) ;;
  st <- get ;;
  match teachingAssistantAgent st with
  | Some agent =>
      if strict_eq (currentApiKey st) apiKey
      then console LogInfo "[Mastra] Reusing existing agent with same API key" ;;
           ret agent
      else build_or_fail apiKey
  | None => build_or_fail apiKey
  end.

(** *** [createMastraStream] *)

(** The body of the loop over a multimodal content, on the pair
    [(prompt, hasImage)]. *)
Definition add_part (acc : string * bool) (content : Part) : string * bool :=
  if (part_type content =? "text")%string
  then (fst acc ++ to_string (part_text content) ++ " ", snd acc)
  else if (part_type content =? "image_url")%string
  then (fst acc ++ "[Screenshot provided] ", true)
  else acc.

Definition extract_prompt (c : Content) : string * bool :=
  match c with
  | NoContent => (EmptyString, false)
  | TextContent s => (s, false)
  | PartsContent parts => fold_left add_part parts (EmptyString, false)
  end.

(** [messages\[messages.length - 1\]]; [None] is [undefined]. *)
Definition last_message (messages : list Message) : option Message :=
  match messages with
  | [] => None
  | _ => nth_error messages (List.length messages - 1)
  end.

Definition createMastraStream (messages : list Message) (options : StreamOptions)
  : M StreamResponse :=
  try_catch
    (st <- get ;;
     match teachingAssistantAgent st with
     | None => throw (Error "Teaching Assistant agent not initialized")
     | Some agent =>
         console LogInfo ("[Mastra] Current API key stored: "
                            ++ (if truthy (currentApiKey st) then "present" else "missing")) ;;
         console LogInfo "[Mastra] Agent initialized: yes" ;;
         match last_message messages with
         | None =>
             throw (TypeError "Cannot read properties of undefined (reading 'content')")
         | Some userMessage =>
             let (prompt, hasImage) := extract_prompt (msg_content userMessage) in
             let resourceId := js_or (resourceId options) (JStr "halo_user_default") in
             now <- (fun st' => (Ok (Date_now W (trace st')), st')) ;;
             let threadId :=
               js_or (threadId options) (JStr ("session_" ++ Z_to_string now)) in
             console LogInfo ("[Mastra] Processing request with "
                                ++ (if hasImage then "screenshot" else "text only")) ;;
             if negb (truthy (currentApiKey st))
             then throw (Error "No API key available for Mastra agent generation")
             else
               let opts :=
                 {| gen_maxSteps := js_or (maxSteps options) (JNum 10);
                    gen_resourceId := resourceId;
                    gen_threadId := threadId;
                    gen_apiKey := currentApiKey st |} in
               response <-
                 perform (EGenerate (agent_ref agent) messages opts)
                         (fun t => generate W t agent messages opts) ;;
               stream <- lift (createStreamFromMastraResponse response) ;;
               ret {| body := stream |}
         end
     end)
    (fun error =>
       console LogError ("[Mastra] Error in createMastraStream: " ++ render error) ;;
       throw error).

(** *** [MastraProvider.validateApiKey] *)

Definition models_url : string := "https://api.openai.com/v1/models".

Definition malformed (apiKey : JsVal) : bool :=
  negb (truthy apiKey)
  || negb (is_string apiKey)
  || negb (match apiKey with JStr s => startsWith s "sk-" | _ => false end).

Definition validateApiKey (apiKey : JsVal) : M Validation :=
  if malformed apiKey
  then ret {| success := false; error := JStr "Invalid OpenAI API key format." |}
  else
    try_catch
      (response <-
         perform (EFetch models_url ("Bearer " ++ to_string apiKey))
                 (fun t => fetch W t models_url ("Bearer " ++ to_string apiKey)) ;;
       if ok response
       then console LogInfo "[Mastra] API key validation successful" ;;
            ret {| success := true; error := JUndefined |}
       else
         let errorData := match json response with
                          | Ok v => v
                          | Throw _ => JObj []
                          end in
         match get_prop errorData "error" with
         | None => throw (TypeError "Cannot read properties of null (reading 'error')")
         | Some err =>
             let message :=
               js_or (get_prop_opt err "message")
                     (JStr ("Validation failed with status: "
                              ++ Z_to_string (status response))) in
             ret {| success := false; error := message |}
         end)
      (fun error =>
         console LogError ("[Mastra] Network error during key validation: " ++ render error) ;;
         ret {| success := false;
                error := JStr "A network error occurred during validation." |}).

(** *** [createStreamingLLM] *)

Record StreamingLLM := { streamChat : list Message -> M StreamResponse }.

Definition createStreamingLLM (config : Config) : StreamingLLM :=
  let apiKey := cfg_apiKey config in
  let model := cfg_model config in
  let temperature := match cfg_temperature config with Some t => t | None => (7 # 10)%Q end in
  let maxTokens := match cfg_maxTokens config with Some n => n | None => 2048%Z end in
  let resourceId := cfg_resourceId config in
  let threadId := cfg_threadId config in
  let maxSteps := cfg_maxSteps config in
  {| streamChat := fun messages =>
       st <- get ;;
       when (negb (is_some (teachingAssistantAgent st)))
            (initializeTeachingAssistant apiKey ;; ret tt) ;;
       createMastraStream messages
         {| resourceId := resourceId; threadId := threadId; maxSteps := maxSteps |} |}.

End Operations.

End Provider.

Import Provider.

(** * Vocabulary of the properties *)

Module Vocabulary.

(** The contents of a list of chunks, put end to end. *)
Definition concat_content (cs : list Chunk) : string :=
  fold_right (fun c acc => (content c ++ acc)%string) EmptyString cs.

(** The chunk the loop pushes on its [k]-th round, counted from 0. *)
Definition window (t : string) (k : nat) : Chunk :=
  {| content := slice t (k * chunkSize) (k * chunkSize + chunkSize) |}.

(** Every tool call of a response, in the order the loops visit them. *)
Definition step_calls (st : Step) : list ToolCall :=
  match toolCalls st with
  | Some calls => calls
  | None => []
  end.

Definition response_calls (response : GenerationResult) : list ToolCall :=
  match steps response with
  | Some ss => flat_map step_calls ss
  | None => []
  end.

(** The text one listed tool call adds to the summary. *)
Definition summary_line (tc : ToolCall) : string :=
  nl ++ "- " ++ to_string (name tc) ++ ": "
     ++ interpolate (stringify_indent2 (result tc)) ++ nl.

Definition concat_lines (calls : list ToolCall) : string :=
  fold_right (fun tc acc => (summary_line tc ++ acc)%string) EmptyString calls.

Definition summary_text (calls : list ToolCall) : string :=
  tools_header ++ concat_lines (filter has_meaningful_result calls).

(** A value that is there: anything but [undefined]. *)
Definition present (v : JsVal) : bool :=
  match v with
  | JUndefined => false
  | _ => true
  end.

(** The words of the specification: a tool call that has both a name and
    a non-absent result. *)
Definition named_with_result (tc : ToolCall) : bool :=
  present (name tc) && present (result tc).

(** A tool call named [lookup] whose result is [false]. *)
Definition response_with_false_result : GenerationResult :=
  {| text := Some "done";
     steps := Some [ {| toolCalls :=
                          Some [ {| name := JStr "lookup"; args := JObj [];
                                    result := JBool false |} ] |} ] |}.

(** The bytes of the event of a chunk, and of the sentinel. *)
Definition wire (c : Chunk) : list byte := encode (data_line (Some c)).
Definition done_bytes : list byte := encode done_line.

(** The stream of the chunks [cs] once [k] of them were delivered. *)
Definition delivering (cs : list Chunk) (k : nat) : ReadableStream :=
  {| chunks := cs; chunkIndex := k; queue := map wire (firstn k cs);
     closed := false; timers := 1 |}.

(** The stream of the chunks [cs] at its end. *)
Definition finished (cs : list Chunk) : ReadableStream :=
  {| chunks := cs; chunkIndex := List.length cs;
     queue := (map wire cs ++ [done_bytes])%list; closed := true; timers := 0 |}.

Definition nonempty_content (c : Chunk) : bool :=
  negb (content c =? EmptyString)%string.

(** The events of a build of the agent: module loading, the MCP client
    and its tools, the memory directory, the memory and the agent. *)
Definition build_event (e : Event) : bool :=
  match e with
  | EImportModules | ENewMCPClient | EGetTools | EMkdir _
  | ENewMemory _ _ | ENewAgent _ _ => true
  | _ => false
  end.

Definition agent_event (e : Event) : bool :=
  match e with
  | ENewAgent _ _ => true
  | _ => false
  end.

Definition generate_event (e : Event) : bool :=
  match e with
  | EGenerate _ _ _ => true
  | _ => false
  end.

Definition fetch_event (e : Event) : bool :=
  match e with
  | EFetch _ _ => true
  | _ => false
  end.

(** The number of agents constructed along a trace. *)
Definition rebuilds (t : Trace) : nat := List.length (filter agent_event t).

(** The identities handed out so far sit below the allocator. *)
Definition well_formed (st : State) : Prop :=
  match teachingAssistantAgent st with
  | Some a => agent_ref a < next_ref st
  | None => True
  end.

(** The cache holds an agent built with the credential [k]. *)
Definition cached_for (st : State) (k : JsVal) : bool :=
  is_some (teachingAssistantAgent st) && strict_eq (currentApiKey st) k.

(** The options [streamChat] hands to [createMastraStream]. *)
Definition stream_options (config : Config) : StreamOptions :=
  {| resourceId := cfg_resourceId config;
     threadId := cfg_threadId config;
     maxSteps := cfg_maxSteps config |}.

Definition not_initialized : JsError := Error "Teaching Assistant agent not initialized".

Definition invalid_format : Validation :=
  {| success := false; error := JStr "Invalid OpenAI API key format." |}.

Definition network_failure : Validation :=
  {| success := false; error := JStr "A network error occurred during validation." |}.

(** A world where every collaborator answers, the tool server apart. *)
Definition world_without_tools : World :=
  {| import_modules := fun _ => Ok tt;
     new_MCPClient := fun _ => Ok tt;
     getTools := fun _ => Throw (Error "spawn npx ENOENT");
     tmpdir := "/tmp";
     path_join := fun a b => (a ++ "/" ++ b)%string;
     existsSync := fun _ _ => false;
     mkdirSync := fun _ _ => Ok tt;
     new_Memory := fun _ => Ok tt;
     new_Agent := fun _ => Ok tt;
     generate := fun _ _ _ _ => Ok {| text := Some "hi"; steps := None |};
     Date_now := fun _ => 1700000000000%Z;
     fetch := fun _ _ _ => Throw (TypeError "fetch failed") |}.

(** A world where the tool server answers with one tool. *)
Definition world_with_tools : World :=
  {| import_modules := fun _ => Ok tt;
     new_MCPClient := fun _ => Ok tt;
     getTools := fun _ => Ok ["startCourse"];
     tmpdir := "/tmp";
     path_join := fun a b => (a ++ "/" ++ b)%string;
     existsSync := fun _ _ => true;
     mkdirSync := fun _ _ => Ok tt;
     new_Memory := fun _ => Ok tt;
     new_Agent := fun _ => Ok tt;
     generate := fun _ _ _ _ => Ok {| text := Some "hi"; steps := None |};
     Date_now := fun _ => 1700000000000%Z;
     fetch := fun _ _ _ => Ok {| ok := true; status := 200; json := Ok (JObj []) |} |}.

Definition key_a : JsVal := JStr "sk-aaaaaaaa".
Definition key_b : JsVal := JStr "sk-bbbbbbbb".

Definition question : list Message :=
  [ {| role := "user"; msg_content := TextContent "What is on my screen?" |} ].

Definition config_a : Config :=
  {| cfg_apiKey := key_a; cfg_model := JUndefined; cfg_temperature := None;
     cfg_maxTokens := None; cfg_resourceId := JStr "student-1";
     cfg_threadId := JStr "thread-1"; cfg_maxSteps := JUndefined; cfg_rest := [] |}.

Definition config_b : Config :=
  {| cfg_apiKey := key_b; cfg_model := JStr "gpt-4o-mini"; cfg_temperature := Some (1 # 5)%Q;
     cfg_maxTokens := Some 64%Z; cfg_resourceId := JStr "student-1";
     cfg_threadId := JStr "thread-1"; cfg_maxSteps := JUndefined; cfg_rest := [] |}.

(** [config_a] with other sampling options. *)
Definition config_a_sampled : Config :=
  {| cfg_apiKey := key_a; cfg_model := JStr "gpt-4o-mini"; cfg_temperature := Some (1 # 5)%Q;
     cfg_maxTokens := Some 64%Z; cfg_resourceId := JStr "student-1";
     cfg_threadId := JStr "thread-1"; cfg_maxSteps := JUndefined; cfg_rest := [] |}.

(** The state after [initializeTeachingAssistant(key_a)] from the start. *)
Definition ready_a : State := snd (initializeTeachingAssistant world_with_tools key_a initial).

(** [st1] comes after [st] with the cache as it was: the allocator did
    not go back, the cached agent and credential are the same, and the
    trace was only appended to, with events that satisfy [ok]. *)
Definition extends_by (ok : Event -> bool) (st st1 : State) : Prop :=
  next_ref st <= next_ref st1
  /\ teachingAssistantAgent st1 = teachingAssistantAgent st
  /\ currentApiKey st1 = currentApiKey st
  /\ exists t, trace st1 = (trace st ++ t)%list /\ forallb ok t = true.

Definition no_agent_event (e : Event) : bool := negb (agent_event e).
Definition no_build_event (e : Event) : bool := negb (build_event e).

(** A computation that only ever moves the state forward and leaves the
    cache alone. *)
Definition monotone (ok : Event -> bool) {A} (c : M A) : Prop :=
  forall st, extends_by ok st (snd (c st)).

(** The agents of the two builds in [world_with_tools], from the start. *)
Definition memory_at (r : nat) (k : JsVal) : Memory :=
  {| memory_ref := r;
     storage_url := "file:/tmp/halo-mastra/teaching-assistant-memory.db";
     vector_url := "file:/tmp/halo-mastra/teaching-assistant-memory.db";
     embedder_model := "text-embedding-3-small";
     embedder_key := k;
     semanticRecall_topK := 5;
     semanticRecall_messageRange := 3;
     lastMessages := 15 |}.

Definition agent_at (r : nat) (k : JsVal) (ts : ToolSet) : Agent :=
  {| agent_ref := S r; agent_name := "Teaching Assistant"; model_id := "gpt-4o";
     model_key := k; tools := ts; memory := memory_at r k |}.

Definition agent_a : Agent := agent_at 1 key_a ["startCourse"].
Definition agent_b : Agent := agent_at 3 key_b ["startCourse"].

(** The state after a question was answered in [ready_a]. *)
Definition answered_a : State :=
  snd (createMastraStream world_with_tools question no_options ready_a).

(** The state after [initializeTeachingAssistant(key_b)] from there. *)
Definition ready_b : State :=
  snd (initializeTeachingAssistant world_with_tools key_b answered_a).

Definition reuse_line : Event :=
  EConsole LogInfo "[Mastra] Reusing existing agent with same API key".

Definition called_line (p : string) : Event :=
  EConsole LogInfo ("[Mastra] initializeTeachingAssistant called with API key: " ++ p).

Definition changed_line : Event :=
  EConsole LogInfo "[Mastra] API key changed, reinitializing Teaching Assistant agent".

Definition tools_warning (e : JsError) : Event :=
  EConsole LogWarn
    ("[Mastra] Failed to connect to MCP server, continuing without course tools: "
       ++ err_message e).

(** A computation that, started on an empty cache, returns with the
    identities in order or throws with the cache still empty. *)
Definition careful {A} (c : M A) : Prop :=
  forall st, teachingAssistantAgent st = None ->
             match c st with
             | (Ok _, st') => well_formed st'
             | (Throw _, st') => teachingAssistantAgent st' = None
             end.

(** The states the exported operations lead to from the start, whatever
    they are called with and whatever they return. *)
Inductive reachable (W : World) : State -> Prop :=
| reach_initial : reachable W initial
| reach_initialize (k : JsVal) (st : State) :
    reachable W st -> reachable W (snd (initializeTeachingAssistant W k st))
| reach_stream (messages : list Message) (options : StreamOptions) (st : State) :
    reachable W st -> reachable W (snd (createMastraStream W messages options st))
| reach_validate (k : JsVal) (st : State) :
    reachable W st -> reachable W (snd (validateApiKey W k st))
| reach_chat (config : Config) (messages : list Message) (st : State) :
    reachable W st ->
    reachable W (snd (streamChat (createStreamingLLM W config) messages st)).

(** [served W st st'] : from [st], the operations that serve requests
    (generation, validation, chat) lead to [st']; no call of
    [initializeTeachingAssistant] is among them. *)
Inductive served (W : World) (st : State) : State -> Prop :=
| served_here : served W st st
| served_stream (messages : list Message) (options : StreamOptions) (st' : State) :
    served W st st' -> served W st (snd (createMastraStream W messages options st'))
| served_validate (k : JsVal) (st' : State) :
    served W st st' -> served W st (snd (validateApiKey W k st'))
| served_chat (config : Config) (messages : list Message) (st' : State) :
    served W st st' ->
    served W st (snd (streamChat (createStreamingLLM W config) messages st')).

End Vocabulary.
Import Vocabulary.

(** * Vocabulary of the further properties *)

Module Behaviour.

(** [record] over a list of events, in order. *)
Definition record_all (t : Trace) (st : State) : State :=
  fold_left (fun s e => record e s) t st.

(** Whether the last message of a conversation carries an image part. *)
Definition has_image (messages : list Message) : bool :=
  match last_message messages with
  | Some m => snd (extract_prompt (msg_content m))
  | None => false
  end.

Definition key_line (st : State) : Event :=
  EConsole LogInfo ("[Mastra] Current API key stored: "
                      ++ (if truthy (currentApiKey st) then "present" else "missing")).

Definition agent_line : Event := EConsole LogInfo "[Mastra] Agent initialized: yes".

Definition request_line (messages : list Message) : Event :=
  EConsole LogInfo ("[Mastra] Processing request with "
                      ++ (if has_image messages then "screenshot" else "text only")).

(** The lines [createMastraStream] writes before it calls the agent. *)
Definition request_lines (st : State) (messages : list Message) : Trace :=
  [key_line st; agent_line; request_line messages].

Definition stream_error_line (e : JsError) : Event :=
  EConsole LogError ("[Mastra] Error in createMastraStream: " ++ render e).

(** The second argument of [agent.generate], lines 251-270: the step
    budget defaults to 10, the resource id to [halo_user_default], the
    thread id to [session_] followed by the clock. *)
Definition generation_options (W : World) (st : State) (options : StreamOptions)
  : GenerateOptions :=
  {| gen_maxSteps := js_or (maxSteps options) (JNum 10);
     gen_resourceId := js_or (resourceId options) (JStr "halo_user_default");
     gen_threadId :=
       js_or (threadId options)
             (JStr ("session_"
                      ++ Z_to_string (Date_now W (trace st ++ [key_line st; agent_line])%list)));
     gen_apiKey := currentApiKey st |}.

Definition no_content : JsError :=
  TypeError "Cannot read properties of undefined (reading 'content')".

Definition no_api_key : JsError := Error "No API key available for Mastra agent generation".

Definition not_a_string : JsError := TypeError "apiKey.substring is not a function".

(** Worlds that differ from a given one in one collaborator. *)
Definition with_generate
  (g : Trace -> Agent -> list Message -> GenerateOptions -> Outcome GenerationResult)
  (W : World) : World :=
  {| import_modules := import_modules W; new_MCPClient := new_MCPClient W;
     getTools := getTools W; tmpdir := tmpdir W; path_join := path_join W;
     existsSync := existsSync W; mkdirSync := mkdirSync W; new_Memory := new_Memory W;
     new_Agent := new_Agent W; generate := g; Date_now := Date_now W; fetch := fetch W |}.

Definition with_fetch (f : Trace -> string -> string -> Outcome Response) (W : World)
  : World :=
  {| import_modules := import_modules W; new_MCPClient := new_MCPClient W;
     getTools := getTools W; tmpdir := tmpdir W; path_join := path_join W;
     existsSync := existsSync W; mkdirSync := mkdirSync W; new_Memory := new_Memory W;
     new_Agent := new_Agent W; generate := generate W; Date_now := Date_now W; fetch := f |}.

Definition with_import (i : Trace -> Outcome unit) (W : World) : World :=
  {| import_modules := i; new_MCPClient := new_MCPClient W;
     getTools := getTools W; tmpdir := tmpdir W; path_join := path_join W;
     existsSync := existsSync W; mkdirSync := mkdirSync W; new_Memory := new_Memory W;
     new_Agent := new_Agent W; generate := generate W; Date_now := Date_now W;
     fetch := fetch W |}.

Definition with_new_Agent (n : Trace -> Outcome unit) (W : World) : World :=
  {| import_modules := import_modules W; new_MCPClient := new_MCPClient W;
     getTools := getTools W; tmpdir := tmpdir W; path_join := path_join W;
     existsSync := existsSync W; mkdirSync := mkdirSync W; new_Memory := new_Memory W;
     new_Agent := n; generate := generate W; Date_now := Date_now W; fetch := fetch W |}.

Definition rate_limited : JsError := Error "429 Too Many Requests".

Definition world_rate_limited : World :=
  with_generate (fun _ _ _ _ => Throw rate_limited) world_with_tools.

(** A response with a tool call and a text of 120 code units. *)
Definition long_text : string :=
  "The gradient of a function points in the direction of steepest ascent; "
    ++ "follow it downhill to minimise the loss step by step.".

Definition response_with_tool : GenerationResult :=
  {| text := Some long_text;
     steps := Some [ {| toolCalls :=
                          Some [ {| name := JStr "getCourse"; args := JObj [];
                                    result := JObj [("lesson", JNum 3)] |} ] |} ] |}.

Definition world_answering : World :=
  with_generate (fun _ _ _ _ => Ok response_with_tool) world_with_tools.

(** The text of a response, empty when it has none. *)
Definition response_text (response : GenerationResult) : string :=
  match text response with
  | Some t => t
  | None => EmptyString
  end.

(** The tool summary of a response, empty when no call is listed. *)
Definition response_summary (response : GenerationResult) : string :=
  if existsb has_meaningful_result (response_calls response)
  then summary_text (response_calls response)
  else EmptyString.

(** The number of line feeds in a string, and in a sequence of bytes. *)
Fixpoint line_feeds (s : string) : nat :=
  match s with
  | EmptyString => 0
  | String c rest => (if (nat_of_ascii c =? 10) then 1 else 0) + line_feeds rest
  end.

Definition byte_line_feeds (bs : list byte) : nat :=
  List.length (filter (Byte.eqb x0a) bs).

(** The event of a chunk without the two line feeds that end it. *)
Definition event_body (c : Chunk) : string :=
  "data: " ++ interpolate (stringify (chunk_value c)).

(** The request [validateApiKey] sends for a key. *)
Definition validation_request (apiKey : JsVal) : Event :=
  EFetch models_url ("Bearer " ++ to_string apiKey).

Definition status_message (r : Response) : JsVal :=
  JStr ("Validation failed with status: " ++ Z_to_string (status r)).

Definition null_body : JsError :=
  TypeError "Cannot read properties of null (reading 'error')".

Definition network_error_line (e : JsError) : Event :=
  EConsole LogError ("[Mastra] Network error during key validation: " ++ render e).

(** Worlds whose provider rejects the key. *)
Definition unauthorized : Response :=
  {| ok := false; status := 401;
     json := Ok (JObj [("error", JObj [("message", JStr "Incorrect API key provided")])]) |}.

Definition bad_gateway : Response :=
  {| ok := false; status := 502; json := Throw (Error "Unexpected token < in JSON") |}.

Definition null_answer : Response := {| ok := false; status := 500; json := Ok JNull |}.

Definition world_unauthorized : World := with_fetch (fun _ _ _ => Ok unauthorized) world_with_tools.
Definition world_bad_gateway : World := with_fetch (fun _ _ _ => Ok bad_gateway) world_with_tools.
Definition world_null_answer : World := with_fetch (fun _ _ _ => Ok null_answer) world_with_tools.

(** A computation that leaves one component of the state as it was. *)
Definition keeps {X A : Type} (proj : State -> X) (c : M A) : Prop :=
  forall st, proj (snd (c st)) = proj st.

(** A credential that passes the first line of
    [initializeTeachingAssistant]: a string or a falsy value. *)
Definition previewable (k : JsVal) : bool := negb (truthy k) || is_string k.

(** The cache and what it rests on: a cached agent was built with the
    recorded credential, with the modules loaded and the client made;
    without a cached agent the recorded credential is [null]. *)
Definition settled (st : State) : Prop :=
  match teachingAssistantAgent st with
  | Some a =>
      currentApiKey st = model_key a
      /\ mastraModules st = true
      /\ is_some (mcpClient st) = true
  | None => currentApiKey st = JNull
  end.

(** A computation that, started on an empty cache, leaves the cache
    empty and the recorded credential as it was when it throws. *)
Definition fails_clean {A} (c : M A) : Prop :=
  forall st e st',
    teachingAssistantAgent st = None ->
    c st = (Throw e, st') ->
    teachingAssistantAgent st' = None /\ currentApiKey st' = currentApiKey st.

Definition failure_line (e : JsError) : Event :=
  EConsole LogError ("[Mastra] Failed to initialize Teaching Assistant agent: " ++ render e).

Definition data_dir (W : World) : string := path_join W (tmpdir W) "halo-mastra".

Definition memory_url (W : World) : string :=
  "file:" ++ path_join W (data_dir W) "teaching-assistant-memory.db".

Definition connected_line : Event :=
  EConsole LogInfo "[Mastra] Successfully connected to MCP course server".

(** What a build started in the state [st] constructs before it asks for
    the tools. *)
Definition provisioning (st : State) : Trace :=
  ((if mastraModules st then [] else [EImportModules])
     ++ (if is_some (mcpClient st) then [] else [ENewMCPClient]))%list.

(** What [getTools], asked on the trace [asked], answered to a build that
    returned the agent [h] and wrote the console line [answer] next. *)
Definition tools_answer (W : World) (asked : Trace) (h : Agent) (answer : Event) : Prop :=
  (getTools W asked = Ok (tools h) /\ answer = connected_line)
  \/ (exists e, getTools W asked = Throw e
                /\ read_message e <> None
                /\ tools h = []
                /\ answer = tools_warning e).

(** What a build that returns the agent [h] constructs after the tools;
    [looked] is the trace on which the data directory is looked for. *)
Definition storage_and_agent (W : World) (looked : Trace) (k : JsVal) (h : Agent) : Trace :=
  ((if existsSync W looked (data_dir W) then [] else [EMkdir (data_dir W)])
     ++ [ENewMemory (memory_url W) k; ENewAgent k (tools h)])%list.

(** The TypeError of reading [message] on a caught [null] or
    [undefined]. *)
Definition unreadable (e : JsError) : JsError :=
  TypeError ("Cannot read properties of " ++ render e ++ " (reading 'message')").

Definition with_getTools (g : Trace -> Outcome ToolSet) (W : World) : World :=
  {| import_modules := import_modules W; new_MCPClient := new_MCPClient W;
     getTools := g; tmpdir := tmpdir W; path_join := path_join W;
     existsSync := existsSync W; mkdirSync := mkdirSync W; new_Memory := new_Memory W;
     new_Agent := new_Agent W; generate := generate W; Date_now := Date_now W;
     fetch := fetch W |}.

(** A world where the promise of [getTools] rejects with [undefined]. *)
Definition world_rejecting_undefined : World :=
  with_getTools (fun _ => Throw (Thrown JUndefined)) world_with_tools.

(** The state after [initializeTeachingAssistant] in the world whose tool
    server cannot be started, from the start, and the agent it caches. *)
Definition ready_without_tools : State :=
  snd (initializeTeachingAssistant world_without_tools key_a initial).

Definition agent_without_tools : Agent := agent_at 1 key_a [].

Definition load_failure_line (e : JsError) : Event :=
  EConsole LogError ("[Mastra] Failed to load modules: " ++ render e).

Definition no_network : JsError := Error "Cannot find package '@mastra/core'".
Definition bad_model : JsError := Error "Invalid model configuration".

Definition world_import_fails : World :=
  with_import (fun _ => Throw no_network) world_with_tools.

Definition world_agent_fails : World :=
  with_new_Agent (fun _ => Throw bad_model) world_with_tools.

(** The state after [initializeTeachingAssistant] with the empty string,
    from the start, and the agent it caches. *)
Definition ready_empty : State :=
  snd (initializeTeachingAssistant world_with_tools (JStr EmptyString) initial).

Definition agent_empty : Agent := agent_at 1 (JStr EmptyString) ["startCourse"].

(** The state after a rotation to [key_b] whose agent construction
    fails. *)
Definition failed_b : State :=
  snd (initializeTeachingAssistant world_agent_fails key_b ready_a).

(** A computation that keeps a property of the state once it holds. *)
Definition stable {A} (P : State -> Prop) (c : M A) : Prop :=
  forall st, P st -> P (snd (c st)).

(** [called W st st'] : some sequence of calls of the exported
    operations leads from [st] to [st']. *)
Inductive called (W : World) (st : State) : State -> Prop :=
| called_here : called W st st
| called_initialize (k : JsVal) (st' : State) :
    called W st st' -> called W st (snd (initializeTeachingAssistant W k st'))
| called_stream (messages : list Message) (options : StreamOptions) (st' : State) :
    called W st st' -> called W st (snd (createMastraStream W messages options st'))
| called_validate (k : JsVal) (st' : State) :
    called W st st' -> called W st (snd (validateApiKey W k st'))
| called_chat (config : Config) (messages : list Message) (st' : State) :
    called W st st' ->
    called W st (snd (streamChat (createStreamingLLM W config) messages st')).

(** The modules are loaded and the client is [c]. *)
Definition provisioned (c : nat) (st : State) : Prop :=
  mastraModules st = true /\ mcpClient st = Some c.

End Behaviour.
Import Behaviour.

(** * Properties *)

Example stringify_nested :
  stringify_indent2 (JObj [("a", JNum 1); ("b", JArr [JStr "x"; JUndefined]); ("c", JUndefined)])
  = Some ("{" ++ nl ++ "  " ++ quote "a" ++ ": 1," ++ nl ++ "  " ++ quote "b" ++ ": ["
          ++ nl ++ "    " ++ quote "x" ++ "," ++ nl ++ "    null" ++ nl ++ "  ]" ++ nl ++ "}").
Proof. reflexivity. Qed.

(** ** Strings *)

Section StringFacts.

Lemma length_substring (s : string) :
  forall i n, String.length (substring i n s) = Nat.min n (String.length s - i).
Proof.
  induction s as [|c s IH]; intros i n.
  - destruct i, n; reflexivity.
  - destruct i as [|i].
    + destruct n as [|n]; [reflexivity|]. simpl. now rewrite IH, Nat.sub_0_r.
    + simpl. apply IH.
Qed.

Lemma substring_nil (s : string) :
  forall i, substring i 0 s = EmptyString.
Proof.
  induction s as [|c s IH]; intros [|i]; simpl; auto.
Qed.

Lemma substring_past (s : string) :
  forall i n, String.length s <= i -> substring i n s = EmptyString.
Proof.
  induction s as [|c s IH]; intros i n H.
  - destruct i, n; reflexivity.
  - destruct i as [|i]; simpl in *; [lia|]. apply IH. lia.
Qed.

Lemma substring_add (s : string) :
  forall i a b, (substring i a s ++ substring (i + a) b s)%string = substring i (a + b) s.
Proof.
  induction s as [|c s IH]; intros i a b.
  - destruct i, a, b; reflexivity.
  - destruct i as [|i].
    + destruct a as [|a]; simpl.
      * reflexivity.
      * f_equal. apply (IH 0).
    + simpl. apply IH.
Qed.

Lemma substring_all (s : string) : substring 0 (String.length s) s = s.
Proof.
  induction s as [|c s IH]; simpl; [reflexivity|]. now rewrite IH.
Qed.

Lemma append_nil_r (s : string) : (s ++ EmptyString)%string = s.
Proof. induction s; simpl; congruence. Qed.

Lemma length_append (a b : string) :
  String.length (a ++ b) = String.length a + String.length b.
Proof. induction a; simpl; auto. Qed.

Lemma append_assoc (a b c : string) : ((a ++ b) ++ c = a ++ (b ++ c))%string.
Proof. induction a; simpl; congruence. Qed.

Lemma slice_window (s : string) (i w : nat) :
  i <= String.length s ->
  slice s i (i + w) = substring i (Nat.min w (String.length s - i)) s.
Proof.
  intros H. unfold slice. f_equal; lia.
Qed.

End StringFacts.

(** ** The text portion of the stream *)

Section TextChunks.

Lemma split_text_more (t : string) (i : nat) :
  i < String.length t ->
  split_text t i
  = {| content := slice t i (i + chunkSize) |} :: split_text t (i + chunkSize).
Proof.
  intros H. rewrite split_text_equation_1.
  destruct (lt_dec i (String.length t)); [reflexivity | contradiction].
Qed.

Lemma split_text_done (t : string) (i : nat) :
  String.length t <= i -> split_text t i = [].
Proof.
  intros H. rewrite split_text_equation_1.
  destruct (lt_dec i (String.length t)); [lia | reflexivity].
Qed.

(** Induction along the loop: the index goes up by [chunkSize] until it
    leaves the text. *)
Lemma loop_ind (t : string) (P : nat -> Prop) :
  (forall i, String.length t <= i -> P i) ->
  (forall i, i < String.length t -> P (i + chunkSize) -> P i) ->
  forall i, P i.
Proof.
  intros Hdone Hmore i.
  remember (String.length t - i) as d eqn:Hd.
  revert i Hd. induction d as [d IH] using lt_wf_ind. intros i Hd.
  destruct (le_lt_dec (String.length t) i) as [Hle|Hlt].
  - now apply Hdone.
  - apply Hmore; [assumption|].
    apply (IH (String.length t - (i + chunkSize))); [unfold chunkSize; lia | reflexivity].
Qed.

Lemma split_text_length (t : string) (i : nat) :
  List.length (split_text t i) = (String.length t - i + 49) / 50.
Proof.
  induction i as [i Hle | i Hlt IH] using (loop_ind t).
  - rewrite split_text_done by assumption.
    replace (String.length t - i) with 0 by lia. reflexivity.
  - rewrite split_text_more by assumption. cbn [List.length]. rewrite IH.
    unfold chunkSize.
    destruct (le_lt_dec 50 (String.length t - i)) as [Hbig|Hsmall].
    + replace (String.length t - i + 49) with (String.length t - (i + 50) + 49 + 1 * 50) by lia.
      rewrite Nat.div_add by lia. lia.
    + replace (String.length t - (i + 50)) with 0 by lia.
      change ((0 + 49) / 50) with 0.
      apply (Nat.div_unique _ 50 1 (String.length t - i - 1)); lia.
Qed.

Lemma split_text_concat (t : string) (i : nat) :
  concat_content (split_text t i) = substring i (String.length t - i) t.
Proof.
  induction i as [i Hle | i Hlt IH] using (loop_ind t).
  - rewrite split_text_done by assumption.
    replace (String.length t - i) with 0 by lia. now rewrite substring_nil.
  - rewrite split_text_more by assumption. simpl. rewrite IH.
    rewrite slice_window by lia. unfold chunkSize.
    destruct (le_lt_dec 50 (String.length t - i)) as [Hbig|Hsmall].
    + rewrite Nat.min_l by lia. rewrite substring_add. f_equal. lia.
    + rewrite Nat.min_r by lia.
      rewrite (substring_past t (i + 50)) by lia. apply append_nil_r.
Qed.

Lemma split_text_nth (t : string) (i : nat) :
  forall k c, nth_error (split_text t i) k = Some c ->
              content c = slice t (i + k * chunkSize) (i + k * chunkSize + chunkSize)
              /\ i + k * chunkSize < String.length t.
Proof.
  induction i as [i Hle | i Hlt IH] using (loop_ind t); intros k c Hk.
  - rewrite split_text_done in Hk by assumption. destruct k; discriminate.
  - rewrite split_text_more in Hk by assumption. destruct k as [|k]; simpl in Hk.
    + injection Hk as <-. simpl. rewrite Nat.add_0_r. auto.
    + apply IH in Hk. replace (i + S k * chunkSize) with (i + chunkSize + k * chunkSize)
        by (unfold chunkSize; lia). exact Hk.
Qed.

End TextChunks.

Section TextChunksMain.

Lemma split_text_windows (t : string) (i : nat) :
  split_text t i
  = map (fun k => {| content := slice t (i + k * chunkSize) (i + k * chunkSize + chunkSize) |})
        (seq 0 (List.length (split_text t i))).
Proof.
  induction i as [i Hle | i Hlt IH] using (loop_ind t).
  - now rewrite split_text_done by assumption.
  - rewrite split_text_more by assumption. cbn [List.length seq map].
    rewrite Nat.add_0_r. f_equal.
    rewrite <- seq_shift, map_map. rewrite IH at 1.
    apply map_ext. intros k.
    now replace (i + S k * chunkSize) with (i + chunkSize + k * chunkSize)
      by (unfold chunkSize; lia).
Qed.

Lemma count_bounds (L : nat) :
  50 * ((L + 49) / 50) < L + 50 /\ L <= 50 * ((L + 49) / 50).
Proof.
  pose proof (Nat.div_mod_eq (L + 49) 50) as E.
  pose proof (Nat.mod_upper_bound (L + 49) 50 ltac:(lia)) as B.
  lia.
Qed.

Lemma last_window_length (L : nat) :
  0 < L ->
  L - ((L + 49) / 50 - 1) * 50 = if L mod 50 =? 0 then 50 else L mod 50.
Proof.
  intros Hpos.
  pose proof (count_bounds L) as [B1 B2].
  pose proof (Nat.div_mod_eq L 50) as E.
  pose proof (Nat.mod_upper_bound L 50 ltac:(lia)) as B.
  destruct (Nat.eqb_spec (L mod 50) 0) as [Hz|Hnz]; lia.
Qed.

Lemma window_lengths (t : string) (n : nat) :
  n * 50 <= String.length t ->
  map (fun c => String.length (content c)) (map (window t) (seq 0 n)) = repeat 50 n.
Proof.
  induction n as [|n IH]; intros H; [reflexivity|].
  rewrite seq_S, !map_app, IH by lia.
  cbn [map Nat.add]. unfold window at 1. cbn [content].
  replace (n * chunkSize + chunkSize) with (n * chunkSize + 50) by reflexivity.
  unfold chunkSize.
  rewrite slice_window, length_substring by lia.
  replace (Nat.min (Nat.min 50 (String.length t - n * 50)) (String.length t - n * 50))
    with 50 by lia.
  clear. induction n as [|n IH]; [reflexivity|]. simpl. now rewrite IH.
Qed.

Lemma text_chunks_windows (t : string) (ss : option (list Step)) :
  text_chunks {| text := Some t; steps := ss |}
  = map (window t) (seq 0 ((String.length t + 49) / 50)).
Proof.
  unfold text_chunks. cbn [text truthy].
  destruct t as [|a t'].
  - reflexivity.
  - cbn [String.eqb negb].
    rewrite split_text_windows, split_text_length, Nat.sub_0_r.
    apply map_ext. intros k. reflexivity.
Qed.

(** C4. A response text of length [L] is cut, in order, into
    [ceil(L/50)] text chunks: the [k]-th is the slice from [50k] to
    [50k + 50], together they spell the text, all but the last have
    length 50 and the last has length [L mod 50], or 50 when [L] is a
    positive multiple of 50. They are the first chunks of the stream. *)
Theorem text_is_cut_in_fifties (t : string) (ss : option (list Step)) :
  let response := {| text := Some t; steps := ss |} in
  let L := String.length t in
  let n := (L + 49) / 50 in
  text_chunks response = map (window t) (seq 0 n)
  /\ List.length (text_chunks response) = n
  /\ concat_content (text_chunks response) = t
  /\ map (fun c => String.length (content c)) (text_chunks response)
     = (if L =? 0 then []
        else repeat 50 (n - 1) ++ [if L mod 50 =? 0 then 50 else L mod 50])%list
  /\ build_chunks response
     = (text_chunks response ++ tool_chunks response ++ [final_chunk])%list.
Proof.
  intros response L n.
  assert (Hcs : text_chunks response = map (window t) (seq 0 n))
    by apply text_chunks_windows.
  split; [exact Hcs|].
  split; [now rewrite Hcs, length_map, length_seq|].
  split.
  { unfold text_chunks, response. cbn [text truthy].
    destruct t as [|a t']; [reflexivity|].
    cbn [String.eqb negb]. rewrite split_text_concat, Nat.sub_0_r. apply substring_all. }
  split; [|reflexivity].
  rewrite Hcs.
  destruct (Nat.eqb_spec L 0) as [Hz|Hnz].
  - unfold n. rewrite Hz. reflexivity.
  - pose proof (count_bounds L) as [B1 B2].
    replace n with (n - 1 + 1) at 1 by (unfold n; lia).
    rewrite seq_app, !map_app, window_lengths by (fold L; unfold n; lia).
    f_equal. cbn [seq map Nat.add]. f_equal.
    unfold window. cbn [content]. unfold chunkSize.
    rewrite slice_window, length_substring by (fold L; unfold n; lia).
    fold L. rewrite <- (last_window_length L) by lia. fold n. lia.
Qed.

End TextChunksMain.

(** ** The tool summary *)

Section ToolSummary.

Lemma truthy_present (v : JsVal) : truthy v = true -> strict_eq v JUndefined = false.
Proof. destruct v; simpl; congruence. Qed.

Lemma has_meaningful_result_truthy (tc : ToolCall) :
  has_meaningful_result tc = truthy (name tc) && truthy (result tc).
Proof.
  unfold has_meaningful_result.
  destruct (truthy (name tc)); [|reflexivity].
  destruct (truthy (result tc)) eqn:E; [|reflexivity].
  now rewrite (truthy_present _ E).
Qed.

Lemma fold_calls (calls : list ToolCall) :
  forall acc,
    fold_left add_tool_call calls acc
    = ((fst acc ++ concat_lines (filter has_meaningful_result calls))%string,
       snd acc || existsb has_meaningful_result calls).
Proof.
  induction calls as [|tc calls IH]; intros [s b]; cbn [fold_left].
  - cbn. now rewrite append_nil_r, orb_false_r.
  - rewrite IH. unfold add_tool_call. cbn [filter existsb].
    destruct (has_meaningful_result tc); cbn [fst snd concat_lines fold_right].
    + rewrite orb_true_r. f_equal. unfold summary_line.
      now rewrite !append_assoc.
    + reflexivity.
Qed.

Lemma concat_lines_app (a b : list ToolCall) :
  concat_lines (a ++ b) = (concat_lines a ++ concat_lines b)%string.
Proof.
  unfold concat_lines.
  induction a as [|x a IH]; cbn [fold_right app]; [reflexivity|].
  now rewrite IH, append_assoc.
Qed.

Lemma fold_steps (ss : list Step) :
  forall acc,
    fold_left add_step ss acc
    = ((fst acc ++ concat_lines (filter has_meaningful_result (flat_map step_calls ss)))%string,
       snd acc || existsb has_meaningful_result (flat_map step_calls ss)).
Proof.
  induction ss as [|st ss IH]; intros [s b]; cbn [fold_left flat_map].
  - cbn. now rewrite append_nil_r, orb_false_r.
  - rewrite IH, filter_app, existsb_app, concat_lines_app.
    assert (Hs : step_calls st
                 = match toolCalls st with Some c => c | None => [] end) by reflexivity.
    rewrite Hs. unfold add_step.
    destruct (toolCalls st) as [calls|].
    + rewrite fold_calls. cbn [fst snd]. now rewrite append_assoc, orb_assoc.
    + reflexivity.
Qed.

(** The tool chunk of a response: one chunk holding the header and a
    line for each call with a truthy name and a truthy result, when there
    is such a call, and no chunk otherwise. *)
Lemma tool_chunks_spec (response : GenerationResult) :
  tool_chunks response
  = if existsb has_meaningful_result (response_calls response)
    then [{| content := summary_text (response_calls response) |}]
    else [].
Proof.
  unfold tool_chunks, response_calls, summary_text.
  destruct (steps response) as [ss|]; [|reflexivity].
  destruct ss as [|st ss]; [reflexivity|].
  cbn [List.length Nat.ltb Nat.leb].
  unfold tool_summary. rewrite fold_steps. cbn [fst snd orb].
  now destruct (existsb has_meaningful_result (flat_map step_calls (st :: ss))).
Qed.

(** C3, as the code has it. The emitter appends exactly one tool-summary
    chunk when some tool call of the steps has a truthy name and a truthy
    result, and none otherwise; the chunk is the header followed by one
    line per such call, in order, so every other call is left out (a call
    whose name or result is [undefined], [null], [false], [0] or the empty
    string). *)
Theorem tool_summary_lists_truthy_results (response : GenerationResult) :
  let listed := fun tc => truthy (name tc) && truthy (result tc) in
  tool_chunks response
  = (if existsb listed (response_calls response)
     then [{| content := (tools_header
                            ++ concat_lines (filter listed (response_calls response)))%string |}]
     else [])
  /\ List.length (tool_chunks response)
     = (if existsb listed (response_calls response) then 1 else 0).
Proof.
  intros listed.
  assert (E : forall l, existsb listed l = existsb has_meaningful_result l).
  { intros l. induction l as [|x l IH]; cbn; [reflexivity|].
    now rewrite IH, has_meaningful_result_truthy. }
  assert (F : forall l, filter listed l = filter has_meaningful_result l).
  { intros l. apply filter_ext. intros x. symmetry. apply has_meaningful_result_truthy. }
  rewrite tool_chunks_spec, E, F. unfold summary_text.
  split; [reflexivity|].
  now destruct (existsb has_meaningful_result (response_calls response)).
Qed.

(** C3 as it is worded fails: the call below has a name and a result that
    is not absent ([false]), and the stream gets no tool-summary chunk. *)
Lemma false_result_is_not_summarised :
  existsb named_with_result (response_calls response_with_false_result) = true
  /\ tool_chunks response_with_false_result = []
  /\ List.length (tool_chunks response_with_false_result)
     <> (if existsb named_with_result (response_calls response_with_false_result)
         then 1 else 0).
Proof.
  repeat split; try reflexivity. vm_compute. discriminate.
Qed.

End ToolSummary.

(** ** The life of the stream *)

Section StreamLife.

Lemma firstn_snoc {A} (l : list A) :
  forall k x, nth_error l k = Some x -> firstn (S k) l = (firstn k l ++ [x])%list.
Proof.
  induction l as [|y l IH]; intros [|k] x H; try discriminate.
  - now injection H as ->.
  - cbn [nth_error] in H. change (firstn (S (S k)) (y :: l)) with (y :: firstn (S k) l).
    now rewrite (IH _ _ H).
Qed.

(** A timeout that finds a chunk left delivers it and sets the next
    timeout. *)
Lemma fire_delivering (cs : list Chunk) (k : nat) :
  k < List.length cs -> fire (delivering cs k) = Ok (delivering cs (S k)).
Proof.
  intros H.
  destruct (nth_error cs k) as [c|] eqn:E.
  - unfold delivering. rewrite (firstn_snoc _ _ _ E), map_app.
    unfold fire, sendChunk. cbn [timers chunkIndex chunks].
    destruct (Nat.ltb_spec k (List.length cs)) as [_|]; [|lia].
    rewrite E. reflexivity.
  - apply nth_error_None in E. lia.
Qed.

(** The timeout after the last chunk delivers the sentinel and closes. *)
Lemma fire_last (cs : list Chunk) :
  fire (delivering cs (List.length cs)) = Ok (finished cs).
Proof.
  unfold fire, delivering, sendChunk. cbn [timers chunkIndex chunks].
  rewrite Nat.ltb_irrefl. unfold enqueue, close, finished. cbn.
  now rewrite firstn_all.
Qed.

(** Nothing is pending on a finished stream. *)
Lemma run_finished (cs : list Chunk) (m : nat) :
  run m (finished cs) = Ok (finished cs).
Proof. induction m as [|m IH]; [reflexivity | exact IH]. Qed.

Lemma run_delivering (cs : list Chunk) (j : nat) :
  forall k, k + j <= List.length cs ->
            run j (delivering cs k) = Ok (delivering cs (k + j)).
Proof.
  induction j as [|j IH]; intros k H.
  - now rewrite Nat.add_0_r.
  - cbn [run]. rewrite fire_delivering by lia. rewrite IH by lia.
    now rewrite Nat.add_succ_r.
Qed.

Lemma run_to_end (cs : list Chunk) (k m : nat) :
  k <= List.length cs ->
  run (List.length cs - k + 1 + m) (delivering cs k) = Ok (finished cs).
Proof.
  intros H. remember (List.length cs - k) as d eqn:Hd.
  revert k H Hd. induction d as [|d IH]; intros k H Hd.
  - assert (k = List.length cs) as -> by lia.
    cbn [Nat.add run]. rewrite fire_last. apply run_finished.
  - cbn [Nat.add run]. rewrite fire_delivering by lia. apply IH; lia.
Qed.

Lemma new_stream_first (cs : list Chunk) :
  0 < List.length cs -> new_stream cs = Ok (delivering cs 1).
Proof.
  intros H. exact (fire_delivering cs 0 H).
Qed.

Lemma nonempty_by_length (s : string) :
  0 < String.length s -> negb (s =? EmptyString)%string = true.
Proof. destruct s; simpl; [lia | reflexivity]. Qed.

Lemma text_chunks_nonempty (response : GenerationResult) :
  forallb nonempty_content (text_chunks response) = true.
Proof.
  destruct response as [[t|] ss]; [|reflexivity].
  rewrite text_chunks_windows.
  apply forallb_forall. intros c Hc.
  apply in_map_iff in Hc as [k [<- Hk]]. apply in_seq in Hk.
  pose proof (count_bounds (String.length t)) as [B1 B2].
  apply nonempty_by_length. unfold window. cbn [content]. unfold chunkSize.
  rewrite slice_window, length_substring by lia. lia.
Qed.

Lemma tool_chunks_nonempty (response : GenerationResult) :
  forallb nonempty_content (tool_chunks response) = true.
Proof.
  rewrite tool_chunks_spec.
  destruct (existsb has_meaningful_result (response_calls response)); reflexivity.
Qed.

(** C5. The chunk array ends with the one empty-content chunk, every
    chunk before it has content; the stream delivers the chunks one per
    timeout and is still open while it does; the timeout after the last
    chunk delivers the line [data: \[DONE\]] with its two line feeds and
    closes the stream in the same turn; from then on no timeout is pending
    and the queue stays as it is. *)
Theorem stream_ends_with_done (response : GenerationResult) :
  let pre := (text_chunks response ++ tool_chunks response)%list in
  let cs := build_chunks response in
  cs = (pre ++ [final_chunk])%list
  /\ forallb nonempty_content pre = true
  /\ content final_chunk = EmptyString
  /\ (forall j, j <= List.length pre ->
        stream_after j response
        = Ok {| chunks := cs; chunkIndex := S j;
                queue := map wire (firstn (S j) cs);
                closed := false; timers := 1 |})
  /\ (forall m,
        stream_after (S (List.length pre) + m) response
        = Ok {| chunks := cs; chunkIndex := List.length cs;
                queue := (map wire pre ++ [wire final_chunk; encode done_line])%list;
                closed := true; timers := 0 |})
  /\ string_of_list_byte (encode done_line) = ("data: [DONE]" ++ nl ++ nl)%string
  /\ string_of_list_byte (wire final_chunk)
     = ("data: {" ++ dquote ++ "choices" ++ dquote ++ ":[{" ++ dquote ++ "delta" ++ dquote
          ++ ":{" ++ dquote ++ "content" ++ dquote ++ ":" ++ dquote ++ dquote ++ "}}]}"
          ++ nl ++ nl)%string.
Proof.
  intros pre cs.
  assert (Hcs : cs = (pre ++ [final_chunk])%list).
  { unfold cs, pre, build_chunks. now rewrite app_assoc. }
  assert (Hlen : List.length cs = S (List.length pre)).
  { rewrite Hcs, length_app. cbn. lia. }
  assert (Hnew : createStreamFromMastraResponse response = Ok (delivering cs 1)).
  { unfold createStreamFromMastraResponse. fold cs. apply new_stream_first. lia. }
  split; [exact Hcs|].
  split.
  { unfold pre. rewrite forallb_app, text_chunks_nonempty, tool_chunks_nonempty.
    reflexivity. }
  split; [reflexivity|].
  split.
  { intros j Hj. unfold stream_after. rewrite Hnew.
    rewrite run_delivering by lia. reflexivity. }
  split.
  { intros m. unfold stream_after. rewrite Hnew.
    replace (S (List.length pre) + m) with (List.length cs - 1 + 1 + m) by lia.
    rewrite run_to_end by lia. unfold finished.
    rewrite Hcs at 3. rewrite map_app. cbn [map]. rewrite <- app_assoc. reflexivity. }
  split; reflexivity.
Qed.

End StreamLife.

(** ** Generation before initialization *)

Section Generation.

Variable W : World.

(** C7. Without a cached agent, [createMastraStream] throws the error
    [Teaching Assistant agent not initialized] for every conversation and
    every options: the only effect is the line written by the [catch], so
    the agent is not invoked and no stream is made. *)
Theorem stream_before_init_is_refused
  (messages : list Message) (options : StreamOptions) (st : State) :
  teachingAssistantAgent st = None ->
  createMastraStream W messages options st
  = (Throw not_initialized,
     record (EConsole LogError
               "[Mastra] Error in createMastraStream: Error: Teaching Assistant agent not initialized")
            st)
  /\ err_name not_initialized = "Error"
  /\ filter generate_event (trace (snd (createMastraStream W messages options st)))
     = filter generate_event (trace st).
Proof.
  intros H.
  assert (E : createMastraStream W messages options st
              = (Throw not_initialized,
                 record (EConsole LogError
                   "[Mastra] Error in createMastraStream: Error: Teaching Assistant agent not initialized")
                   st)).
  { unfold createMastraStream, try_catch, bind, get. rewrite H. reflexivity. }
  rewrite E. repeat split.
  cbn [snd record trace]. rewrite filter_app. cbn. apply app_nil_r.
Qed.

End Generation.

Lemma stream_before_init_is_refused_witness :
  createMastraStream world_with_tools question no_options initial
  = (Throw not_initialized,
     record (EConsole LogError
               "[Mastra] Error in createMastraStream: Error: Teaching Assistant agent not initialized")
            initial)
  /\ err_name not_initialized = "Error"
  /\ filter generate_event
       (trace (snd (createMastraStream world_with_tools question no_options initial)))
     = filter generate_event (trace initial).
Proof.
  apply (stream_before_init_is_refused world_with_tools question no_options initial).
  reflexivity.
Defined.

(** ** Key validation *)

Section Validation.

Variable W : World.

Lemma malformed_cases (apiKey : JsVal) :
  truthy apiKey = false
  \/ is_string apiKey = false
  \/ (exists s, apiKey = JStr s /\ startsWith s "sk-" = false) ->
  malformed apiKey = true.
Proof.
  unfold malformed. intros [H | [H | [s [-> H]]]].
  - now rewrite H.
  - rewrite H. apply orb_true_iff. left. apply orb_true_r.
  - rewrite H. apply orb_true_r.
Qed.

Lemma well_formed_key (s : string) :
  startsWith s "sk-" = true -> malformed (JStr s) = false.
Proof.
  intros H. unfold malformed. rewrite H.
  destruct s; [discriminate H | reflexivity].
Qed.

(** C8. A key that is falsy (the empty string among them), is not a
    string, or does not start with [sk-] gets the format failure and the
    state, trace included, is untouched: [fetch] is not called. When
    [fetch] throws, the result is the failure with the generic network
    message. In no case does [validateApiKey] throw. *)
Theorem validation_reports_failures (apiKey : JsVal) (st : State) :
  (truthy apiKey = false
   \/ is_string apiKey = false
   \/ (exists s, apiKey = JStr s /\ startsWith s "sk-" = false) ->
   validateApiKey W apiKey st = (Ok invalid_format, st))
  /\ (forall s e,
        apiKey = JStr s ->
        startsWith s "sk-" = true ->
        fetch W (trace st) models_url ("Bearer " ++ s) = Throw e ->
        validateApiKey W apiKey st
        = (Ok network_failure,
           record (EConsole LogError
                     ("[Mastra] Network error during key validation: " ++ render e))
                  (record (EFetch models_url ("Bearer " ++ s)) st)))
  /\ (exists v st', validateApiKey W apiKey st = (Ok v, st')).
Proof.
  split; [|split].
  - intros H. unfold validateApiKey. now rewrite (malformed_cases _ H).
  - intros s e -> Hs He. unfold validateApiKey.
    rewrite (well_formed_key _ Hs).
    unfold try_catch, bind, perform. cbn [to_string]. rewrite He. reflexivity.
  - unfold validateApiKey.
    destruct (malformed apiKey) eqn:Hm; [unfold ret; eauto|].
    unfold try_catch, bind, perform, console, modify, ret, throw.
    destruct (fetch W (trace st) models_url ("Bearer " ++ to_string apiKey)) as [r|e];
      [|eauto].
    destruct (ok r) eqn:Hok; [eauto|].
    destruct (get_prop (match json r with Ok v => v | Throw _ => JObj [] end) "error");
      eauto.
Qed.

End Validation.

Lemma validation_reports_failures_witness :
  validateApiKey world_without_tools (JNum 42) initial = (Ok invalid_format, initial)
  /\ validateApiKey world_without_tools key_a initial
     = (Ok network_failure,
        record (EConsole LogError
                  ("[Mastra] Network error during key validation: "
                     ++ render (TypeError "fetch failed")))
               (record (EFetch models_url "Bearer sk-aaaaaaaa") initial)).
Proof.
  split.
  - apply (validation_reports_failures world_without_tools (JNum 42) initial).
    right. left. reflexivity.
  - apply (proj1 (proj2 (validation_reports_failures world_without_tools key_a initial))
             "sk-aaaaaaaa" (TypeError "fetch failed")); reflexivity.
Defined.

(** ** The streaming facade *)

Section Facade.

Variable W : World.

(** C10. Two configs that agree on the credential, the resource id, the
    thread id and the step budget, and differ in [model], [temperature],
    [maxTokens] or the remaining options only, give the same [streamChat]:
    on every conversation and every state it returns the same outcome, so
    the same stream of chunks, and leaves the same state, so the same
    trace and in it the same call of the agent with the same options. *)
Theorem sampling_options_are_ignored (c1 c2 : Config) :
  cfg_apiKey c1 = cfg_apiKey c2 ->
  cfg_resourceId c1 = cfg_resourceId c2 ->
  cfg_threadId c1 = cfg_threadId c2 ->
  cfg_maxSteps c1 = cfg_maxSteps c2 ->
  forall (messages : list Message) (st : State),
    streamChat (createStreamingLLM W c1) messages st
    = streamChat (createStreamingLLM W c2) messages st.
Proof.
  intros Hk Hr Ht Hm messages st.
  unfold createStreamingLLM. cbn [streamChat].
  now rewrite Hk, Hr, Ht, Hm.
Qed.

End Facade.

Lemma sampling_options_are_ignored_witness :
  streamChat (createStreamingLLM world_with_tools config_a) question ready_a
  = streamChat (createStreamingLLM world_with_tools config_a_sampled) question ready_a.
Proof.
  apply (sampling_options_are_ignored world_with_tools config_a config_a_sampled);
    reflexivity.
Defined.

(** ** A cached agent is used as it is *)

Section CachedAgent.

Variable W : World.

Lemma last_message_some (messages : list Message) :
  messages <> [] -> exists m, last_message messages = Some m.
Proof.
  intros H. destruct messages as [|m0 ms]; [contradiction|].
  unfold last_message.
  destruct (nth_error (m0 :: ms) (List.length (m0 :: ms) - 1)) as [m|] eqn:E; [eauto|].
  apply nth_error_None in E. cbn in E. lia.
Qed.

Ltac trace_tail :=
  cbn [snd record trace];
  repeat rewrite <- app_assoc;
  cbn [app];
  eexists; split; [reflexivity|].

Ltac only_generate :=
  let Hin := fresh "Hin" in
  intros ? ? ? Hin; cbn [In] in Hin;
  repeat (destruct Hin as [Hin|Hin]; [try discriminate Hin|]);
  try contradiction;
  try (injection Hin as <- <- <-; cbn; auto).

(** What [createMastraStream] does to the state when an agent is cached:
    it appends to the trace and writes nothing else; it builds nothing;
    every call of the agent it makes is a call of the cached agent with
    the cached credential. *)
Lemma createMastraStream_frame
  (messages : list Message) (options : StreamOptions) (st : State) (a : Agent) :
  teachingAssistantAgent st = Some a ->
  let st' := snd (createMastraStream W messages options st) in
  (teachingAssistantAgent st' = Some a
   /\ currentApiKey st' = currentApiKey st
   /\ next_ref st' = next_ref st
   /\ mastraModules st' = mastraModules st
   /\ mcpClient st' = mcpClient st
   /\ OPENAI_API_KEY st' = OPENAI_API_KEY st)
  /\ exists t,
       trace st' = (trace st ++ t)%list
       /\ forallb no_build_event t = true
       /\ (forall id m o, In (EGenerate id m o) t ->
             id = agent_ref a /\ m = messages /\ gen_apiKey o = currentApiKey st)
       /\ (messages <> [] -> truthy (currentApiKey st) = true ->
           exists o, In (EGenerate (agent_ref a) messages o) t
                     /\ gen_apiKey o = currentApiKey st).
Proof.
  intros H.
  unfold createMastraStream, try_catch, bind, get, console, modify, perform, lift, throw, ret.
  rewrite H.
  destruct (last_message messages) as [userMessage|] eqn:Hlast.
  - destruct (extract_prompt (msg_content userMessage)) as [prompt hasImage].
    cbn [trace record].
    destruct (truthy (currentApiKey st)) eqn:Hkey; cbn [negb].
    + match goal with
      | |- context [generate W ?t ?ag ?ms ?os] => destruct (generate W t ag ms os) as [response|e]
      end.
      * destruct (createStreamFromMastraResponse response) as [stream|e];
          (split; [cbn; auto 10|]); trace_tail;
          (split; [reflexivity|]); (split; [only_generate|]);
          intros _ _; eexists; (split; [cbn [In]; eauto 10|reflexivity]).
      * (split; [cbn; auto 10|]); trace_tail;
          (split; [reflexivity|]); (split; [only_generate|]);
          intros _ _; eexists; (split; [cbn [In]; eauto 10|reflexivity]).
    + (split; [cbn; auto 10|]); trace_tail.
      split; [reflexivity|]. split; [only_generate|]. intros _ Habs. discriminate Habs.
  - (split; [cbn; auto 10|]); trace_tail.
    split; [reflexivity|]. split; [only_generate|].
    intros Hne _. destruct (last_message_some _ Hne) as [m Hm]. congruence.
Qed.

(** C9. With an agent cached, [streamChat] is [createMastraStream] on the
    conversation and the routing options of the config: the credential of
    the config is not read. The cached agent and credential, the modules,
    the client and the allocator are left as they were; the trace grows by
    events that are no build events; the agent that is invoked is the
    cached one, with the cached credential among its options; and the
    agent is invoked when the conversation is not empty and the cached
    credential is truthy. *)
Theorem cached_agent_is_not_rebuilt
  (config : Config) (messages : list Message) (st : State) (a : Agent) :
  teachingAssistantAgent st = Some a ->
  let run := streamChat (createStreamingLLM W config) messages st in
  run = createMastraStream W messages (stream_options config) st
  /\ (teachingAssistantAgent (snd run) = Some a
      /\ currentApiKey (snd run) = currentApiKey st
      /\ next_ref (snd run) = next_ref st
      /\ mastraModules (snd run) = mastraModules st
      /\ mcpClient (snd run) = mcpClient st
      /\ OPENAI_API_KEY (snd run) = OPENAI_API_KEY st)
  /\ exists t,
       trace (snd run) = (trace st ++ t)%list
       /\ forallb no_build_event t = true
       /\ (forall id m o, In (EGenerate id m o) t ->
             id = agent_ref a /\ m = messages /\ gen_apiKey o = currentApiKey st)
       /\ (messages <> [] -> truthy (currentApiKey st) = true ->
           exists o, In (EGenerate (agent_ref a) messages o) t
                     /\ gen_apiKey o = currentApiKey st).
Proof.
  intros H run.
  assert (E : run = createMastraStream W messages (stream_options config) st).
  { unfold run, createStreamingLLM. cbn [streamChat].
    unfold bind at 1. unfold get. unfold bind at 1. rewrite H. reflexivity. }
  split; [exact E|]. rewrite E.
  exact (createMastraStream_frame messages (stream_options config) st a H).
Qed.

End CachedAgent.

(** ** How the operations move the state *)

Section Frames.

Variable ok : Event -> bool.

Lemma extends_refl (st : State) : extends_by ok st st.
Proof. repeat split; [lia|]. exists []. now rewrite app_nil_r. Qed.

Lemma extends_trans (a b c : State) :
  extends_by ok a b -> extends_by ok b c -> extends_by ok a c.
Proof.
  intros (Hn & Ha & Hk & t & Ht & Hok) (Hn' & Ha' & Hk' & t' & Ht' & Hok').
  split; [lia|]. split; [congruence|]. split; [congruence|].
  exists (t ++ t')%list. split.
  - now rewrite Ht', Ht, app_assoc.
  - now rewrite forallb_app, Hok, Hok'.
Qed.

Lemma extends_record (e : Event) (st : State) :
  ok e = true -> extends_by ok st (record e st).
Proof.
  intros H. repeat split; [cbn; lia|]. exists [e]. split; [reflexivity|].
  cbn. now rewrite H.
Qed.

Context {A B : Type}.

Lemma monotone_ret (a : A) : monotone ok (ret a).
Proof. intros st. apply extends_refl. Qed.

Lemma monotone_throw (e : JsError) : monotone ok (@throw A e).
Proof. intros st. apply extends_refl. Qed.

Lemma monotone_lift (o : Outcome A) : monotone ok (lift o).
Proof. intros st. apply extends_refl. Qed.

Lemma monotone_perform (e : Event) (oracle : Trace -> Outcome A) :
  ok e = true -> monotone ok (perform e oracle).
Proof. intros H st. now apply extends_record. Qed.

Lemma monotone_bind (c : M A) (k : A -> M B) :
  monotone ok c -> (forall a, monotone ok (k a)) -> monotone ok (bind c k).
Proof.
  intros Hc Hk st. unfold bind. specialize (Hc st).
  destruct (c st) as [[a|e] st1]; cbn [snd] in *; [|exact Hc].
  exact (extends_trans _ _ _ Hc (Hk a st1)).
Qed.

Lemma monotone_try_catch (c : M A) (handler : JsError -> M A) :
  monotone ok c -> (forall e, monotone ok (handler e)) -> monotone ok (try_catch c handler).
Proof.
  intros Hc Hh st. unfold try_catch. specialize (Hc st).
  destruct (c st) as [[a|e] st1]; cbn [snd] in *; [exact Hc|].
  exact (extends_trans _ _ _ Hc (Hh e st1)).
Qed.

Lemma monotone_if (b : bool) (x y : M A) :
  monotone ok x -> monotone ok y -> monotone ok (if b then x else y).
Proof. now destruct b. Qed.

End Frames.

Section StateFrames.

Variable ok : Event -> bool.

Lemma monotone_get : monotone ok get.
Proof. intros st. apply extends_refl. Qed.

Lemma monotone_console (level : LogLevel) (line : string) :
  ok (EConsole level line) = true -> monotone ok (console level line).
Proof. intros H st. now apply extends_record. Qed.

Lemma monotone_fresh : monotone ok fresh.
Proof.
  intros st. repeat split; [cbn; lia|]. exists []. cbn. now rewrite app_nil_r.
Qed.

Lemma monotone_modify (f : State -> State) :
  (forall st, next_ref (f st) = next_ref st
              /\ teachingAssistantAgent (f st) = teachingAssistantAgent st
              /\ currentApiKey (f st) = currentApiKey st
              /\ trace (f st) = trace st) ->
  monotone ok (modify f).
Proof.
  intros H st. destruct (H st) as (Hn & Ha & Hk & Ht).
  split; cbn; [lia|]. split; [exact Ha|]. split; [exact Hk|].
  exists []. now rewrite app_nil_r.
Qed.

Lemma monotone_when (b : bool) (c : M unit) : monotone ok c -> monotone ok (when b c).
Proof. intros H. unfold when. destruct b; [exact H | apply monotone_ret]. Qed.

End StateFrames.

Lemma rebuilds_app (t t' : Trace) :
  rebuilds (t ++ t')%list = rebuilds t + rebuilds t'.
Proof. unfold rebuilds. now rewrite filter_app, length_app. Qed.

Lemma quiet_rebuilds (t : Trace) : forallb no_agent_event t = true -> rebuilds t = 0.
Proof.
  induction t as [|e t IH]; [reflexivity|]. intros Hq.
  cbn in Hq. apply andb_true_iff in Hq as [He Hq].
  unfold rebuilds in *. cbn. unfold no_agent_event in He.
  destruct (agent_event e); [discriminate|]. now apply IH.
Qed.

Lemma extends_rebuilds (st st1 : State) :
  extends_by no_agent_event st st1 -> rebuilds (trace st1) = rebuilds (trace st).
Proof.
  intros (_ & _ & _ & t & -> & Hq). rewrite rebuilds_app, (quiet_rebuilds _ Hq). lia.
Qed.

Ltac mono :=
  repeat (cbv zeta; intros;
          first [ apply monotone_bind
                | apply monotone_try_catch
                | apply monotone_when
                | apply monotone_if
                | apply monotone_ret
                | apply monotone_throw
                | apply monotone_lift
                | apply monotone_get
                | apply monotone_console; reflexivity
                | apply monotone_fresh
                | apply monotone_perform; reflexivity
                | apply monotone_modify; intros; repeat split; reflexivity
                | match goal with
                  | |- monotone _ (match ?x with _ => _ end) => destruct x
                  end ]).

Section BuildSteps.

Variable W : World.

Lemma monotone_loadMastraModules : monotone no_agent_event (loadMastraModules W).
Proof. unfold loadMastraModules. mono. Qed.

Lemma monotone_ensure_client : monotone no_agent_event (ensure_client W).
Proof. unfold ensure_client. mono. Qed.

Lemma monotone_obtain_tools : monotone no_agent_event (obtain_tools W).
Proof. unfold obtain_tools. mono. Qed.

Lemma monotone_open_memory (k : JsVal) : monotone no_agent_event (open_memory W k).
Proof. unfold open_memory. mono. Qed.

Lemma monotone_validateApiKey (k : JsVal) : monotone no_build_event (validateApiKey W k).
Proof. unfold validateApiKey. mono. Qed.

End BuildSteps.

(** ** Building and caching the agent *)

Section Lifecycle.

Variable W : World.

Lemma bind_ok {A B} (c : M A) (k : A -> M B) (st st' : State) (b : B) :
  bind c k st = (Ok b, st') ->
  exists a st1, c st = (Ok a, st1) /\ k a st1 = (Ok b, st').
Proof.
  unfold bind. destruct (c st) as [[a|e] st1]; intros H; [eauto | discriminate].
Qed.

Lemma monotone_run {A} (ok : Event -> bool) (c : M A) (st st1 : State) (o : Outcome A) :
  monotone ok c -> c st = (o, st1) -> extends_by ok st st1.
Proof. intros Hc E. specialize (Hc st). now rewrite E in Hc. Qed.

Lemma strict_eq_eq (a b : JsVal) : strict_eq a b = true -> a = b.
Proof.
  destruct a, b; cbn; try discriminate; intros H; try reflexivity.
  - f_equal. now apply Bool.eqb_prop.
  - f_equal. now apply Z.eqb_eq.
  - f_equal. now apply String.eqb_eq.
Qed.

(** A value that passed the first line of [initializeTeachingAssistant]
    is a string or a falsy primitive, and equals itself under [===]. *)
Lemma previewed_key_is_primitive (k : JsVal) (p : string) :
  key_preview k = Ok p -> strict_eq k k = true.
Proof.
  unfold key_preview. destruct k; cbn; try discriminate; intros _; try reflexivity.
  - apply Bool.eqb_reflx.
  - apply Z.eqb_refl.
  - apply String.eqb_refl.
Qed.

Lemma construct_agent_ok (k : JsVal) (ts : ToolSet) (m : Memory) (st st' : State) (h : Agent) :
  construct_agent W k ts m st = (Ok h, st') ->
  agent_ref h = next_ref st
  /\ model_key h = k
  /\ tools h = ts
  /\ teachingAssistantAgent st' = Some h
  /\ currentApiKey st' = k
  /\ next_ref st' = S (next_ref st)
  /\ exists p,
       key_preview k = Ok p
       /\ trace st'
          = (trace st
               ++ [EConsole LogInfo
                     ("[Mastra] Creating agent with OpenAI model using API key: " ++ p);
                   ENewAgent k ts;
                   EConsole LogInfo
                     "[Mastra] Teaching Assistant agent initialized successfully"])%list.
Proof.
  unfold construct_agent, bind, lift, console, modify, perform, fresh, ret.
  destruct (key_preview k) as [p|e]; [|discriminate].
  cbn [record trace].
  destruct (new_Agent W _) as [[]|e]; [|discriminate].
  intros H. injection H as <- <-. cbn.
  repeat split. exists p. split; [reflexivity|].
  now rewrite <- !app_assoc.
Qed.

Lemma build_agent_ok (k : JsVal) (st st' : State) (h : Agent) :
  build_agent W k st = (Ok h, st') ->
  teachingAssistantAgent st' = Some h
  /\ currentApiKey st' = k
  /\ model_key h = k
  /\ next_ref st <= agent_ref h < next_ref st'
  /\ (exists p, key_preview k = Ok p)
  /\ exists t, trace st' = (trace st ++ t)%list
               /\ rebuilds t = 1
               /\ In (ENewAgent k (tools h)) t.
Proof.
  unfold build_agent. intros H.
  apply bind_ok in H as ([] & s1 & E1 & H).
  apply bind_ok in H as ([] & s2 & E2 & H).
  apply bind_ok in H as ([] & s3 & E3 & H).
  apply bind_ok in H as (ts & s4 & E4 & H).
  apply bind_ok in H as (m & s5 & E5 & H).
  assert (Q : extends_by no_agent_event st s5).
  { apply (extends_trans _ _ s1);
      [eapply monotone_run; [|exact E1]; mono|].
    apply (extends_trans _ _ s2);
      [exact (monotone_run _ _ _ _ _ (monotone_loadMastraModules W) E2)|].
    apply (extends_trans _ _ s3);
      [exact (monotone_run _ _ _ _ _ (monotone_ensure_client W) E3)|].
    apply (extends_trans _ _ s4);
      [exact (monotone_run _ _ _ _ _ (monotone_obtain_tools W) E4)|].
    exact (monotone_run _ _ _ _ _ (monotone_open_memory W k) E5). }
  destruct (construct_agent_ok _ _ _ _ _ _ H)
    as (Href & Hkey & Hts & Hag & Hcur & Hnext & p & Hp & Htr).
  destruct Q as (Hn & _ & _ & t0 & Ht0 & Hq).
  split; [exact Hag|]. split; [exact Hcur|]. split; [exact Hkey|].
  split; [lia|]. split; [eauto|].
  eexists. split; [rewrite Htr, Ht0, <- app_assoc; reflexivity|].
  split.
  - rewrite rebuilds_app, (quiet_rebuilds _ Hq). reflexivity.
  - rewrite Hts. apply in_or_app. right. cbn. auto.
Qed.

(** The two ways [initializeTeachingAssistant] returns an agent: the
    cached one for the same credential, or a fresh one after the cache
    was emptied when it held an agent of another credential. *)
Lemma init_ok_cases (k : JsVal) (st st' : State) (h : Agent) :
  initializeTeachingAssistant W k st = (Ok h, st') ->
  exists p,
    key_preview k = Ok p
    /\ ((teachingAssistantAgent st = Some h
         /\ strict_eq (currentApiKey st) k = true
         /\ st' = record (EConsole LogInfo
                            "[Mastra] Reusing existing agent with same API key")
                    (record (EConsole LogInfo
                               ("[Mastra] initializeTeachingAssistant called with API key: "
                                  ++ p)) st))
        \/ (cached_for st k = false
            /\ exists sb,
                 build_agent W k sb = (Ok h, st')
                 /\ next_ref sb = next_ref st
                 /\ teachingAssistantAgent sb = None
                 /\ exists t0,
                      trace sb = (trace st ++ t0)%list
                      /\ forallb no_agent_event t0 = true
                      /\ (is_some (teachingAssistantAgent st) = true ->
                          In (EConsole LogInfo
                                "[Mastra] API key changed, reinitializing Teaching Assistant agent")
                             t0))).
Proof.
  unfold initializeTeachingAssistant, cached_for.
  unfold bind at 1. unfold lift.
  destruct (key_preview k) as [p|e]; [|discriminate].
  intros H. exists p. split; [reflexivity|].
  unfold bind, console, modify, get, when, ret, build_or_fail, try_catch in H.
  cbn [record teachingAssistantAgent currentApiKey] in H.
  destruct (teachingAssistantAgent st) as [a|] eqn:Ha; cbn [is_some andb] in *.
  - destruct (strict_eq (currentApiKey st) k) eqn:Hk; cbn [negb] in H.
    + cbn [teachingAssistantAgent currentApiKey record] in H. rewrite Ha, Hk in H.
      injection H as <- <-. left. auto.
    + cbn [teachingAssistantAgent currentApiKey record set_key set_agent] in H.
      right. split; [reflexivity|].
      match type of H with
      | context [build_agent W k ?s] => exists s; destruct (build_agent W k s) as [[x|e] s'] eqn:Hb
      end; [|discriminate].
      injection H as <- <-. split; [reflexivity|]. split; [reflexivity|].
      split; [reflexivity|].
      eexists. split; [cbn; rewrite <- app_assoc; reflexivity|].
      split; [reflexivity|]. intros _. cbn. auto.
  - cbn [teachingAssistantAgent currentApiKey record] in H. rewrite Ha in H.
    right. split; [reflexivity|].
    match type of H with
    | context [build_agent W k ?s] => exists s; destruct (build_agent W k s) as [[x|e] s'] eqn:Hb
    end; [|discriminate].
    injection H as <- <-. split; [reflexivity|]. split; [reflexivity|].
    split; [exact Ha|].
    eexists. split; [reflexivity|]. split; [reflexivity|]. discriminate.
Qed.

Lemma quiet_build_events (t : Trace) :
  forallb no_build_event t = true -> filter build_event t = [] /\ rebuilds t = 0.
Proof.
  induction t as [|e t IH]; [now split|]. intros Hq.
  cbn in Hq. apply andb_true_iff in Hq as [He Hq]. destruct (IH Hq) as [IH1 IH2].
  unfold rebuilds in *. cbn. unfold no_build_event in He.
  destruct e; cbn in *; try discriminate; auto.
Qed.

(** Serving requests leaves a cached agent and its credential in place,
    builds nothing and keeps the identities in order. *)
Lemma served_keeps_cache (st st' : State) (h : Agent) :
  teachingAssistantAgent st = Some h ->
  served W st st' ->
  teachingAssistantAgent st' = Some h
  /\ currentApiKey st' = currentApiKey st
  /\ next_ref st <= next_ref st'
  /\ exists t, trace st' = (trace st ++ t)%list /\ forallb no_build_event t = true.
Proof.
  intros Ha Hs.
  induction Hs as [|messages options st' _ IH|k st' _ IH|config messages st' _ IH].
  - split; [exact Ha|]. split; [reflexivity|]. split; [lia|].
    exists []. now rewrite app_nil_r.
  - destruct IH as (Ha' & Hk' & Hn' & t' & Ht' & Hq').
    destruct (createMastraStream_frame W messages options st' h Ha')
      as ((Ha2 & Hk2 & Hn2 & _) & t & Ht & Hq & _).
    split; [exact Ha2|]. split; [congruence|]. split; [lia|].
    exists (t' ++ t)%list. split; [now rewrite Ht, Ht', app_assoc|].
    rewrite forallb_app, Hq'. exact Hq.
  - destruct IH as (Ha' & Hk' & Hn' & t' & Ht' & Hq').
    destruct (monotone_validateApiKey W k st') as (Hn2 & Ha2 & Hk2 & t & Ht & Hq).
    split; [congruence|]. split; [congruence|]. split; [lia|].
    exists (t' ++ t)%list. split; [now rewrite Ht, Ht', app_assoc|].
    now rewrite forallb_app, Hq', Hq.
  - destruct IH as (Ha' & Hk' & Hn' & t' & Ht' & Hq').
    assert (E : streamChat (createStreamingLLM W config) messages st'
                = createMastraStream W messages (stream_options config) st').
    { unfold createStreamingLLM. cbn [streamChat].
      unfold bind at 1. unfold get. unfold bind at 1. rewrite Ha'. reflexivity. }
    rewrite E.
    destruct (createMastraStream_frame W messages (stream_options config) st' h Ha')
      as ((Ha2 & Hk2 & Hn2 & _) & t & Ht & Hq & _).
    split; [exact Ha2|]. split; [congruence|]. split; [lia|].
    exists (t' ++ t)%list. split; [now rewrite Ht, Ht', app_assoc|].
    rewrite forallb_app, Hq'. exact Hq.
Qed.

Lemma init_reuse (k : JsVal) (p : string) (st : State) (h : Agent) :
  key_preview k = Ok p ->
  teachingAssistantAgent st = Some h ->
  strict_eq (currentApiKey st) k = true ->
  initializeTeachingAssistant W k st
  = (Ok h, record reuse_line (record (called_line p) st)).
Proof.
  intros Hp Ha Hk. unfold initializeTeachingAssistant.
  unfold bind at 1. unfold lift. rewrite Hp.
  unfold bind, console, modify, get, when, ret.
  cbn [record teachingAssistantAgent currentApiKey].
  rewrite Ha, Hk. cbn [is_some andb negb].
  cbn [record teachingAssistantAgent currentApiKey].
  rewrite Ha, Hk. reflexivity.
Qed.

Lemma init_ok_post (k : JsVal) (st st' : State) (h : Agent) :
  initializeTeachingAssistant W k st = (Ok h, st') ->
  teachingAssistantAgent st' = Some h
  /\ strict_eq (currentApiKey st') k = true
  /\ (well_formed st -> well_formed st')
  /\ exists p, key_preview k = Ok p.
Proof.
  intros H.
  destruct (init_ok_cases _ _ _ _ H) as (p & Hp & [(Ha & Hk & ->) | (_ & sb & Hb & _)]).
  - cbn [record teachingAssistantAgent currentApiKey].
    split; [exact Ha|]. split; [exact Hk|]. split; [|eauto].
    unfold well_formed. cbn [record teachingAssistantAgent next_ref]. auto.
  - destruct (build_agent_ok _ _ _ _ Hb) as (Ha & Hk & _ & Hr & _).
    split; [exact Ha|]. split; [|split; [|eauto]].
    + rewrite Hk. exact (previewed_key_is_primitive _ _ Hp).
    + intros _. unfold well_formed. rewrite Ha. lia.
Qed.

(** C1. After [initializeTeachingAssistant(c)] returned an agent, and
    after any requests served since, [initializeTeachingAssistant(c)]
    returns the same agent and leaves the state as it was but for two
    console lines: the cache, the modules, the client and the allocator
    are untouched, and since the first call no module was loaded, no tool
    asked for, no memory and no agent constructed. *)
Theorem same_credential_reuses_agent (c : JsVal) (st0 st1 st : State) (h : Agent) :
  initializeTeachingAssistant W c st0 = (Ok h, st1) ->
  served W st1 st ->
  exists p,
    key_preview c = Ok p
    /\ initializeTeachingAssistant W c st
       = (Ok h, record reuse_line (record (called_line p) st))
    /\ rebuilds (trace (snd (initializeTeachingAssistant W c st))) = rebuilds (trace st1)
    /\ filter build_event (trace (snd (initializeTeachingAssistant W c st)))
       = filter build_event (trace st1).
Proof.
  intros H Hs. destruct (init_ok_post _ _ _ _ H) as (Ha & Hk & _ & p & Hp).
  destruct (served_keeps_cache _ _ _ Ha Hs) as (Ha' & Hk' & _ & t & Ht & Hq).
  rewrite <- Hk' in Hk.
  exists p. split; [exact Hp|].
  rewrite (init_reuse _ _ _ _ Hp Ha' Hk).
  split; [reflexivity|].
  destruct (quiet_build_events _ Hq) as [Hf Hr].
  cbn [snd record trace reuse_line called_line].
  rewrite Ht, <- !app_assoc. split.
  - rewrite !rebuilds_app, Hr. cbn. lia.
  - rewrite !filter_app, Hf. cbn. now rewrite app_nil_r.
Qed.

(** C2. For two different credentials, when
    [initializeTeachingAssistant(a)] returned an agent and, after any
    requests served since, [initializeTeachingAssistant(b)] returns one,
    the second call logs that the key changed and empties the cache,
    constructs exactly one agent, whose identity is new, and leaves that
    agent in the cache with [b] as the recorded credential and as the
    credential of its model. *)
Theorem changed_credential_rebuilds_agent
  (a b : JsVal) (st0 st1 st st2 : State) (h1 h2 : Agent) :
  well_formed st0 ->
  a <> b ->
  initializeTeachingAssistant W a st0 = (Ok h1, st1) ->
  served W st1 st ->
  initializeTeachingAssistant W b st = (Ok h2, st2) ->
  teachingAssistantAgent st = Some h1
  /\ agent_ref h2 <> agent_ref h1
  /\ teachingAssistantAgent st2 = Some h2
  /\ currentApiKey st2 = b
  /\ model_key h2 = b
  /\ rebuilds (trace st2) = S (rebuilds (trace st))
  /\ exists t, trace st2 = (trace st ++ t)%list
               /\ In changed_line t
               /\ In (ENewAgent b (tools h2)) t.
Proof.
  intros Hwf Hab H1 Hs H2.
  destruct (init_ok_post _ _ _ _ H1) as (Ha1 & Hk1 & Hwf1 & _).
  specialize (Hwf1 Hwf). unfold well_formed in Hwf1. rewrite Ha1 in Hwf1.
  apply strict_eq_eq in Hk1.
  destruct (served_keeps_cache _ _ _ Ha1 Hs) as (Ha & Hk & Hnext & _).
  destruct (init_ok_cases _ _ _ _ H2)
    as (p & Hp & [(_ & Hk' & _) | (_ & sb & Hb & Hn & Hsb & t0 & Ht0 & Hq & Hlog)]).
  - apply strict_eq_eq in Hk'. congruence.
  - destruct (build_agent_ok _ _ _ _ Hb)
      as (Ha2 & Hk2 & Hm2 & Hr & _ & t & Ht & Hcount & Hin).
    split; [exact Ha|]. split; [lia|]. split; [exact Ha2|].
    split; [exact Hk2|]. split; [exact Hm2|]. split.
    + rewrite Ht, Ht0, !rebuilds_app, Hcount, (quiet_rebuilds _ Hq). lia.
    + exists (t0 ++ t)%list.
      split; [now rewrite Ht, Ht0, app_assoc|].
      split; apply in_or_app; [left | now right].
      apply Hlog. now rewrite Ha.
Qed.

End Lifecycle.

(** ** The identities stay in order *)

Section Invariant.

Variable W : World.

Lemma extends_well_formed (ok : Event -> bool) (st st1 : State) :
  extends_by ok st st1 -> well_formed st -> well_formed st1.
Proof.
  intros (Hn & Ha & _) H. unfold well_formed in *. rewrite Ha.
  destruct (teachingAssistantAgent st); [lia | exact I].
Qed.

Lemma careful_bind {A B} (ok : Event -> bool) (c : M A) (k : A -> M B) :
  monotone ok c -> (forall a, careful (k a)) -> careful (bind c k).
Proof.
  intros Hc Hk st Hst. unfold bind. specialize (Hc st).
  destruct (c st) as [[a|e] st1]; cbn [snd] in Hc; destruct Hc as (_ & Ha & _).
  - apply Hk. congruence.
  - congruence.
Qed.

Lemma careful_construct_agent (k : JsVal) (ts : ToolSet) (m : Memory) :
  careful (construct_agent W k ts m).
Proof.
  intros st Hst.
  unfold construct_agent, bind, lift, console, modify, perform, fresh, ret.
  destruct (key_preview k) as [p|e]; [|exact Hst].
  cbn [record trace].
  destruct (new_Agent W _) as [[]|e]; [|exact Hst].
  unfold well_formed. cbn. lia.
Qed.

Lemma careful_build_agent (k : JsVal) : careful (build_agent W k).
Proof.
  unfold build_agent.
  apply (careful_bind no_agent_event); [mono|intros _].
  apply (careful_bind no_agent_event); [apply monotone_loadMastraModules|intros _].
  apply (careful_bind no_agent_event); [apply monotone_ensure_client|intros _].
  apply (careful_bind no_agent_event); [apply monotone_obtain_tools|intros ts].
  apply (careful_bind no_agent_event); [apply monotone_open_memory|intros m].
  apply careful_construct_agent.
Qed.

(** A build that fails leaves the cache empty, one that returns leaves
    the identities in order. *)
Lemma careful_build_or_fail (k : JsVal) : careful (build_or_fail W k).
Proof.
  intros st Hst. unfold build_or_fail, try_catch.
  pose proof (careful_build_agent k st Hst) as H.
  destruct (build_agent W k st) as [[a|e] st1]; [exact H|].
  unfold bind, console, modify, throw. cbn. exact H.
Qed.

Lemma careful_well_formed {A} (c : M A) (st : State) :
  careful c -> teachingAssistantAgent st = None -> well_formed (snd (c st)).
Proof.
  intros Hc Hst. specialize (Hc st Hst).
  destruct (c st) as [[a|e] st1]; cbn [snd]; [exact Hc|].
  unfold well_formed. now rewrite Hc.
Qed.

Lemma initialize_well_formed (k : JsVal) (st : State) :
  well_formed st -> well_formed (snd (initializeTeachingAssistant W k st)).
Proof.
  intros Hwf. unfold initializeTeachingAssistant.
  unfold bind at 1. unfold lift.
  destruct (key_preview k) as [p|e]; [|exact Hwf].
  unfold bind, console, modify, get, when, ret.
  cbn [record teachingAssistantAgent currentApiKey].
  destruct (teachingAssistantAgent st) as [a|] eqn:Ha; cbn [is_some andb].
  - destruct (strict_eq (currentApiKey st) k) eqn:Hk; cbn [negb].
    + cbn [record teachingAssistantAgent currentApiKey]. rewrite Ha, Hk.
      cbn [snd]. unfold well_formed in *. cbn [record teachingAssistantAgent next_ref].
      now rewrite Ha in *.
    + cbn [record teachingAssistantAgent currentApiKey set_key set_agent].
      apply careful_well_formed; [apply careful_build_or_fail | reflexivity].
  - cbn [record teachingAssistantAgent currentApiKey]. rewrite Ha.
    apply careful_well_formed; [apply careful_build_or_fail | exact Ha].
Qed.

Lemma stream_well_formed (messages : list Message) (options : StreamOptions) (st : State) :
  well_formed st -> well_formed (snd (createMastraStream W messages options st)).
Proof.
  intros Hwf. destruct (teachingAssistantAgent st) as [a|] eqn:Ha.
  - destruct (createMastraStream_frame W messages options st a Ha) as ((Ha' & _ & Hn & _) & _).
    unfold well_formed in *. rewrite Ha', Hn. now rewrite Ha in Hwf.
  - unfold createMastraStream, try_catch, bind, get. rewrite Ha.
    unfold well_formed. cbn. now rewrite Ha.
Qed.

Lemma chat_well_formed (config : Config) (messages : list Message) (st : State) :
  well_formed st ->
  well_formed (snd (streamChat (createStreamingLLM W config) messages st)).
Proof.
  intros Hwf. unfold createStreamingLLM. cbn [streamChat].
  unfold bind at 1. unfold get. unfold bind at 1. unfold when.
  destruct (teachingAssistantAgent st) as [a|] eqn:Ha; cbn [is_some negb].
  - unfold ret. now apply stream_well_formed.
  - pose proof (initialize_well_formed (cfg_apiKey config) st Hwf) as Hi.
    unfold bind at 1.
    destruct (initializeTeachingAssistant W (cfg_apiKey config) st) as [[h|e] st1];
      cbn [snd] in Hi; unfold ret.
    + now apply stream_well_formed.
    + exact Hi.
Qed.

(** In every state the operations lead to, the cached agent has an
    identity below the allocator. *)
Lemma reachable_well_formed (st : State) : reachable W st -> well_formed st.
Proof.
  induction 1 as [|k st _ IH|messages options st _ IH|k st _ IH|config messages st _ IH].
  - exact I.
  - now apply initialize_well_formed.
  - now apply stream_well_formed.
  - exact (extends_well_formed _ _ _ (monotone_validateApiKey W k st) IH).
  - now apply chat_well_formed.
Qed.

End Invariant.

(** ** The properties at work on concrete runs *)

Lemma same_credential_reuses_agent_witness :
  exists p,
    key_preview key_a = Ok p
    /\ initializeTeachingAssistant world_with_tools key_a answered_a
       = (Ok agent_a, record reuse_line (record (called_line p) answered_a))
    /\ rebuilds (trace (snd (initializeTeachingAssistant world_with_tools key_a answered_a)))
       = rebuilds (trace ready_a)
    /\ filter build_event
         (trace (snd (initializeTeachingAssistant world_with_tools key_a answered_a)))
       = filter build_event (trace ready_a).
Proof.
  apply (same_credential_reuses_agent world_with_tools key_a initial ready_a answered_a
           agent_a).
  - vm_compute. reflexivity.
  - apply served_stream, served_here.
Defined.

Lemma changed_credential_rebuilds_agent_witness :
  teachingAssistantAgent answered_a = Some agent_a
  /\ agent_ref agent_b <> agent_ref agent_a
  /\ teachingAssistantAgent ready_b = Some agent_b
  /\ currentApiKey ready_b = key_b
  /\ model_key agent_b = key_b
  /\ rebuilds (trace ready_b) = S (rebuilds (trace answered_a))
  /\ exists t, trace ready_b = (trace answered_a ++ t)%list
               /\ In changed_line t
               /\ In (ENewAgent key_b (tools agent_b)) t.
Proof.
  apply (changed_credential_rebuilds_agent world_with_tools key_a key_b
           initial ready_a answered_a ready_b agent_a agent_b).
  - exact I.
  - discriminate.
  - vm_compute. reflexivity.
  - apply served_stream, served_here.
  - vm_compute. reflexivity.
Defined.

Lemma cached_agent_is_not_rebuilt_witness :
  cfg_apiKey config_b <> currentApiKey ready_a
  /\ streamChat (createStreamingLLM world_with_tools config_b) question ready_a
     = createMastraStream world_with_tools question (stream_options config_b) ready_a
  /\ exists o,
       In (EGenerate (agent_ref agent_a) question o)
          (trace (snd (streamChat (createStreamingLLM world_with_tools config_b)
                         question ready_a)))
       /\ gen_apiKey o = key_a.
Proof.
  destruct (cached_agent_is_not_rebuilt world_with_tools config_b question ready_a agent_a)
    as (E & _ & t & Ht & _ & _ & Hgen).
  - vm_compute. reflexivity.
  - split; [vm_compute; discriminate|]. split; [exact E|].
    destruct Hgen as (o & Hin & Hk).
    + discriminate.
    + reflexivity.
    + exists o. split; [|exact Hk]. rewrite Ht. apply in_or_app. now right.
Defined.

Lemma stream_ends_with_done_witness :
  stream_after 1 response_with_false_result
  = Ok {| chunks := build_chunks response_with_false_result;
          chunkIndex := 2;
          queue := map wire (firstn 2 (build_chunks response_with_false_result));
          closed := false; timers := 1 |}.
Proof.
  pose proof (stream_ends_with_done response_with_false_result) as H.
  cbv zeta in H. destruct H as (_ & _ & _ & H & _).
  apply (H 1). vm_compute. apply le_n.
Defined.

(** * Further properties *)

(** ** What a generation request does *)

Section Requests.

Variable W : World.

Lemma trace_record (e : Event) (st : State) :
  trace (record e st) = (trace st ++ [e])%list.
Proof. reflexivity. Qed.

Lemma record_all_trace (t : Trace) (st : State) :
  trace (record_all t st) = (trace st ++ t)%list.
Proof.
  revert st. induction t as [|e t IH]; intros st; cbn.
  - now rewrite app_nil_r.
  - unfold record_all in IH. rewrite IH. cbn. now rewrite <- app_assoc.
Qed.

Lemma generate_events_of_lines (st : State) (messages : list Message) :
  filter generate_event (request_lines st messages) = [].
Proof. reflexivity. Qed.

(** The run of [createMastraStream] up to the credential check, when an
    agent is cached and the conversation has a last message. *)
Lemma stream_reaches_agent
  (messages : list Message) (options : StreamOptions) (st : State) (a : Agent) :
  teachingAssistantAgent st = Some a ->
  messages <> [] ->
  truthy (currentApiKey st) = true ->
  createMastraStream W messages options st
  = match generate W (trace st ++ request_lines st messages)%list a messages
            (generation_options W st options) with
    | Ok response =>
        match createStreamFromMastraResponse response with
        | Ok stream =>
            (Ok {| body := stream |},
             record (EGenerate (agent_ref a) messages (generation_options W st options))
                    (record_all (request_lines st messages) st))
        | Throw e =>
            (Throw e,
             record (stream_error_line e)
               (record (EGenerate (agent_ref a) messages (generation_options W st options))
                       (record_all (request_lines st messages) st)))
        end
    | Throw e =>
        (Throw e,
         record (stream_error_line e)
           (record (EGenerate (agent_ref a) messages (generation_options W st options))
                   (record_all (request_lines st messages) st)))
    end.
Proof.
  intros Ha Hne Hk.
  destruct (last_message_some _ Hne) as [m Hm].
  unfold createMastraStream, try_catch, bind, get, console, modify, perform, lift, throw, ret.
  rewrite Ha, Hm.
  unfold generation_options, request_lines, request_line, has_image, key_line, agent_line.
  rewrite Hm, Hk.
  destruct (extract_prompt (msg_content m)) as [prompt hasImage].
  cbn [snd negb trace record record_all fold_left app].
  rewrite <- !app_assoc. cbn [app].
  destruct (generate W _ a messages _) as [response|e]; [|reflexivity].
  destruct (createStreamFromMastraResponse response) as [stream|e]; reflexivity.
Qed.

Lemma stream_always_starts (response : GenerationResult) :
  createStreamFromMastraResponse response = Ok (delivering (build_chunks response) 1).
Proof.
  apply new_stream_first. unfold build_chunks. rewrite !length_app. cbn. lia.
Qed.

(** X1. With an agent cached, a truthy credential and a conversation that
    is not empty, [createMastraStream] calls the agent once, on the whole
    conversation, with the step budget, resource id and thread id of the
    options or their defaults (10, [halo_user_default], [session_] and
    the clock) and the cached credential; when the agent answers, the
    result is the stream of that answer with its first chunk already
    delivered, and the only effects are three console lines and the
    call. *)
Theorem generation_answer_becomes_stream
  (messages : list Message) (options : StreamOptions) (st : State) (a : Agent)
  (response : GenerationResult) :
  teachingAssistantAgent st = Some a ->
  messages <> [] ->
  truthy (currentApiKey st) = true ->
  generate W (trace st ++ request_lines st messages)%list a messages
           (generation_options W st options) = Ok response ->
  createMastraStream W messages options st
  = (Ok {| body := delivering (build_chunks response) 1 |},
     record (EGenerate (agent_ref a) messages (generation_options W st options))
            (record_all (request_lines st messages) st)).
Proof.
  intros Ha Hne Hk Hg.
  rewrite (stream_reaches_agent _ _ _ _ Ha Hne Hk), Hg, stream_always_starts.
  reflexivity.
Qed.

(** X2. When the agent throws, [createMastraStream] throws the same
    error after writing it to the console: no stream is made, and the
    cache is as it was. *)
Theorem generation_error_is_rethrown
  (messages : list Message) (options : StreamOptions) (st : State) (a : Agent)
  (e : JsError) :
  teachingAssistantAgent st = Some a ->
  messages <> [] ->
  truthy (currentApiKey st) = true ->
  generate W (trace st ++ request_lines st messages)%list a messages
           (generation_options W st options) = Throw e ->
  createMastraStream W messages options st
  = (Throw e,
     record (stream_error_line e)
       (record (EGenerate (agent_ref a) messages (generation_options W st options))
               (record_all (request_lines st messages) st)))
  /\ teachingAssistantAgent (snd (createMastraStream W messages options st)) = Some a
  /\ currentApiKey (snd (createMastraStream W messages options st)) = currentApiKey st.
Proof.
  intros Ha Hne Hk Hg.
  rewrite (stream_reaches_agent _ _ _ _ Ha Hne Hk), Hg.
  split; [reflexivity|]. cbn [snd]. split.
  - cbn [record teachingAssistantAgent]. clear Hg.
    unfold request_lines, record_all. cbn. exact Ha.
  - reflexivity.
Qed.

(** X3. An empty conversation with an agent cached: reading the content
    of the missing last message throws a [TypeError], which is written to
    the console and rethrown; the agent is not called and the cache is as
    it was. *)
Theorem empty_conversation_is_a_type_error
  (options : StreamOptions) (st : State) (a : Agent) :
  teachingAssistantAgent st = Some a ->
  exists e,
    err_name e = "TypeError"
    /\ createMastraStream W [] options st
       = (Throw e,
          record (stream_error_line e) (record agent_line (record (key_line st) st)))
    /\ filter generate_event (trace (snd (createMastraStream W [] options st)))
       = filter generate_event (trace st)
    /\ teachingAssistantAgent (snd (createMastraStream W [] options st)) = Some a.
Proof.
  intros Ha. exists no_content. split; [reflexivity|].
  assert (E : createMastraStream W [] options st
              = (Throw no_content,
                 record (stream_error_line no_content)
                        (record agent_line (record (key_line st) st)))).
  { unfold createMastraStream, try_catch, bind, get, console, modify, throw.
    rewrite Ha. reflexivity. }
  rewrite E. split; [reflexivity|]. split.
  - cbn [snd]. rewrite !trace_record, <- !app_assoc, filter_app. cbn. apply app_nil_r.
  - exact Ha.
Qed.

(** X4. An agent cached with a falsy credential is of no use: when
    [initializeTeachingAssistant] succeeded with a credential that is
    [undefined], [null] or the empty string, every later request on a
    conversation that is not empty throws [No API key available for Mastra
    agent generation] and the agent is not called. *)
Theorem falsy_credential_blocks_generation
  (k : JsVal) (st0 st : State) (h : Agent)
  (messages : list Message) (options : StreamOptions) :
  initializeTeachingAssistant W k st0 = (Ok h, st) ->
  truthy k = false ->
  messages <> [] ->
  createMastraStream W messages options st
  = (Throw no_api_key,
     record (stream_error_line no_api_key) (record_all (request_lines st messages) st))
  /\ filter generate_event (trace (snd (createMastraStream W messages options st)))
     = filter generate_event (trace st).
Proof.
  intros Hi Hk Hne.
  destruct (init_ok_post _ _ _ _ _ Hi) as (Ha & Heq & _).
  apply strict_eq_eq in Heq.
  destruct (last_message_some _ Hne) as [m Hm].
  assert (E : createMastraStream W messages options st
              = (Throw no_api_key,
                 record (stream_error_line no_api_key)
                        (record_all (request_lines st messages) st))).
  { unfold createMastraStream, try_catch, bind, get, console, modify, perform, lift, throw, ret.
    rewrite Ha, Hm.
    unfold request_lines, request_line, has_image, key_line. rewrite Hm, Heq, Hk.
    destruct (extract_prompt (msg_content m)) as [prompt hasImage].
    reflexivity. }
  rewrite E. split; [reflexivity|].
  cbn [snd]. rewrite trace_record, record_all_trace, <- app_assoc, filter_app.
  cbn. apply app_nil_r.
Qed.

End Requests.

(** ** What the consumer of the stream reads *)

Section Consumer.

Lemma concat_content_app (a b : list Chunk) :
  concat_content (a ++ b) = (concat_content a ++ concat_content b)%string.
Proof.
  unfold concat_content.
  induction a as [|x a IH]; cbn [fold_right app]; [reflexivity|].
  now rewrite IH, append_assoc.
Qed.

Lemma text_chunks_concat (response : GenerationResult) :
  concat_content (text_chunks response) = response_text response.
Proof.
  unfold text_chunks, response_text.
  destruct (text response) as [t|]; [|reflexivity].
  destruct t as [|c t']; [reflexivity|].
  cbn [truthy String.eqb negb].
  rewrite split_text_concat, Nat.sub_0_r. apply substring_all.
Qed.

(** X5. Putting the contents of the chunks of a response end to end
    gives back its text followed by the tool summary (when a call is
    listed): what the consumer assembles from the deltas is what the
    agent answered, nothing lost and nothing reordered. *)
Theorem deltas_spell_the_answer (response : GenerationResult) :
  concat_content (build_chunks response)
  = (response_text response ++ response_summary response)%string.
Proof.
  unfold build_chunks, response_summary.
  rewrite !concat_content_app, text_chunks_concat, tool_chunks_spec.
  f_equal.
  destruct (existsb has_meaningful_result (response_calls response)); cbn.
  - now rewrite !append_nil_r.
  - reflexivity.
Qed.

Lemma line_feeds_app (a b : string) :
  line_feeds (a ++ b) = line_feeds a + line_feeds b.
Proof. induction a as [|c a IH]; cbn [append line_feeds]; [reflexivity|]. rewrite IH. lia. Qed.

Lemma quote_char_one_line (c : ascii) : line_feeds (quote_char c) = 0.
Proof. destruct c as [[] [] [] [] [] [] [] []]; reflexivity. Qed.

Lemma quote_one_line (s : string) : line_feeds (quote s) = 0.
Proof.
  unfold quote. rewrite !line_feeds_app.
  assert (H : line_feeds (quote_body s) = 0).
  { induction s as [|c s IH]; [reflexivity|].
    cbn [quote_body]. now rewrite line_feeds_app, quote_char_one_line, IH. }
  rewrite H. reflexivity.
Qed.

Lemma encode_app (a b : string) : encode (a ++ b) = (encode a ++ encode b)%list.
Proof.
  induction a as [|c a IH]; cbn [append encode]; [reflexivity|].
  now rewrite IH, app_assoc.
Qed.

Lemma utf8_unit_line_feeds (c : ascii) :
  byte_line_feeds (utf8_unit c) = if nat_of_ascii c =? 10 then 1 else 0.
Proof. destruct c as [[] [] [] [] [] [] [] []]; reflexivity. Qed.

Lemma encode_line_feeds (s : string) : byte_line_feeds (encode s) = line_feeds s.
Proof.
  induction s as [|c s IH]; [reflexivity|].
  cbn [encode line_feeds]. unfold byte_line_feeds in *.
  rewrite filter_app, length_app, IH. f_equal. apply utf8_unit_line_feeds.
Qed.

(** X6. The event of a chunk is one line: whatever the content (line
    feeds, quotes and control characters included), the text before the
    two closing line feeds holds no line feed, and so do its bytes on the
    wire. The blank line that ends an event cannot occur inside one. *)
Theorem event_is_one_line (c : Chunk) :
  data_line (Some c) = (event_body c ++ nl ++ nl)%string
  /\ line_feeds (event_body c) = 0
  /\ wire c = (encode (event_body c) ++ [x0a; x0a])%list
  /\ byte_line_feeds (encode (event_body c)) = 0.
Proof.
  assert (Hbody : line_feeds (event_body c) = 0).
  { unfold event_body, stringify, chunk_value. cbn [serialize map wrap interpolate].
    cbn [String.eqb]. cbn [join].
    rewrite !line_feeds_app, !quote_one_line. reflexivity. }
  split; [reflexivity|]. split; [exact Hbody|]. split.
  - unfold wire. change (data_line (Some c)) with (event_body c ++ nl ++ nl)%string.
    now rewrite encode_app.
  - now rewrite encode_line_feeds.
Qed.

End Consumer.

(** ** What a validation answers *)

Section ValidationAnswers.

Variable W : World.

Lemma status_message_truthy (r : Response) : truthy (status_message r) = true.
Proof. reflexivity. Qed.

Lemma js_or_truthy (a b : JsVal) : truthy b = true -> truthy (js_or a b) = true.
Proof. intros H. unfold js_or. destruct (truthy a) eqn:E; assumption. Qed.

(** X7. [validateApiKey] reports success only when the key is a string
    that starts with [sk-] and the provider answered the request with an
    ok response; and every failure it reports carries a message that is
    not empty. *)
Theorem validation_success_is_earned (apiKey : JsVal) (st st' : State) (v : Validation) :
  validateApiKey W apiKey st = (Ok v, st') ->
  (success v = true ->
   error v = JUndefined
   /\ (exists s, apiKey = JStr s /\ startsWith s "sk-" = true)
   /\ exists r, fetch W (trace st) models_url ("Bearer " ++ to_string apiKey) = Ok r
                /\ ok r = true)
  /\ (success v = false -> truthy (error v) = true).
Proof.
  unfold validateApiKey.
  destruct (malformed apiKey) eqn:Hm.
  - unfold ret. intros H. injection H as <- <-. split; [discriminate | reflexivity].
  - unfold try_catch, bind, perform, console, modify, ret, throw.
    destruct (fetch W (trace st) models_url ("Bearer " ++ to_string apiKey)) as [r|e] eqn:Hf.
    + destruct (ok r) eqn:Hok.
      * intros H. injection H as <- <-. split; [|discriminate].
        intros _. split; [reflexivity|]. split; [|eauto].
        unfold malformed in Hm.
        destruct apiKey as [| |b|n|s|xs|props]; try discriminate Hm;
          try (cbn in Hm; rewrite ?orb_true_r in Hm; discriminate Hm).
        exists s. split; [reflexivity|].
        apply orb_false_iff in Hm as [_ Hm]. now apply negb_false_iff in Hm.
      * destruct (get_prop (match json r with Ok x => x | Throw _ => JObj [] end) "error");
          intros H; injection H as <- <-; (split; [discriminate|]); intros _.
        -- cbn [error]. apply js_or_truthy. reflexivity.
        -- reflexivity.
    + intros H. injection H as <- <-. split; [discriminate | reflexivity].
Qed.

(** X8. [validateApiKey] sends at most one request: none for a malformed
    key and, for a well-formed one, exactly one, to the models endpoint
    with the key as bearer token. It writes nothing but the trace. *)
Theorem validation_sends_one_request (apiKey : JsVal) (st : State) :
  let st' := snd (validateApiKey W apiKey st) in
  (exists t, trace st' = (trace st ++ t)%list
             /\ filter fetch_event t
                = (if malformed apiKey then [] else [validation_request apiKey]))
  /\ teachingAssistantAgent st' = teachingAssistantAgent st
  /\ currentApiKey st' = currentApiKey st
  /\ mastraModules st' = mastraModules st
  /\ mcpClient st' = mcpClient st
  /\ OPENAI_API_KEY st' = OPENAI_API_KEY st
  /\ next_ref st' = next_ref st.
Proof.
  unfold validateApiKey, validation_request.
  destruct (malformed apiKey) eqn:Hm; cbv zeta.
  - unfold ret. cbn [snd]. split; [|auto 10]. exists []. now rewrite app_nil_r.
  - unfold try_catch, bind, perform, console, modify, ret, throw.
    destruct (fetch W (trace st) models_url ("Bearer " ++ to_string apiKey)) as [r|e].
    + destruct (ok r).
      * cbn [snd]. split; [|auto 10]. eexists. split.
        -- cbn [record trace]. rewrite <- app_assoc. reflexivity.
        -- reflexivity.
      * destruct (get_prop (match json r with Ok x => x | Throw _ => JObj [] end) "error");
          cbn [snd]; (split; [|auto 10]); eexists;
          (split; [cbn [record trace]; rewrite <- ?app_assoc; reflexivity | reflexivity]).
    + cbn [snd]. split; [|auto 10]. eexists. split.
      * cbn [record trace]. rewrite <- app_assoc. reflexivity.
      * reflexivity.
Qed.

(** X9. A response that is not ok gives a failure whose message is the
    [error.message] of the JSON body when there is a truthy one, and the
    line with the status otherwise, also when the body is not JSON. When
    the body is the JSON [null], reading its [error] throws inside the
    [try]: the failure then carries the network-error message. *)
Theorem rejected_key_message (s : string) (st : State) (r : Response) :
  startsWith s "sk-" = true ->
  fetch W (trace st) models_url ("Bearer " ++ s) = Ok r ->
  ok r = false ->
  (forall body err,
     json r = Ok body -> get_prop body "error" = Some err ->
     fst (validateApiKey W (JStr s) st)
     = Ok {| success := false;
             error := js_or (get_prop_opt err "message") (status_message r) |})
  /\ (forall e,
        json r = Throw e ->
        fst (validateApiKey W (JStr s) st)
        = Ok {| success := false; error := status_message r |})
  /\ (json r = Ok JNull ->
      fst (validateApiKey W (JStr s) st) = Ok network_failure
      /\ exists e,
           err_name e = "TypeError"
           /\ snd (validateApiKey W (JStr s) st)
              = record (network_error_line e) (record (validation_request (JStr s)) st)).
Proof.
  intros Hs Hf Hok. unfold validateApiKey. rewrite (well_formed_key _ Hs).
  unfold try_catch, bind, perform, console, modify, ret, throw.
  cbn [to_string]. rewrite Hf, Hok.
  split; [|split].
  - intros body err Hj He. rewrite Hj, He. reflexivity.
  - intros e Hj. rewrite Hj. reflexivity.
  - intros Hj. rewrite Hj. split; [reflexivity|]. exists null_body. now split.
Qed.

(** X10. A credential that is truthy and not a string (a number, [true],
    an array, an object) makes [initializeTeachingAssistant] throw a
    [TypeError] on its first line, outside the [try]: nothing is written,
    not even to the console, and a cached agent stays cached. *)
Theorem non_string_credential_is_a_type_error (k : JsVal) (st : State) :
  truthy k = true ->
  is_string k = false ->
  exists e,
    err_name e = "TypeError"
    /\ initializeTeachingAssistant W k st = (Throw e, st).
Proof.
  intros Ht Hs. exists not_a_string. split; [reflexivity|].
  unfold initializeTeachingAssistant. unfold bind at 1. unfold lift.
  unfold key_preview. rewrite Ht.
  destruct k; try discriminate Hs; reflexivity.
Qed.

End ValidationAnswers.

(** ** Components the operations leave alone *)

Section Keeps.

Context {X : Type}.
Variable proj : State -> X.
Hypothesis proj_record : forall e st, proj (record e st) = proj st.
Hypothesis proj_bump : forall st, proj (bump_ref st) = proj st.

Lemma keeps_ret {A} (a : A) : keeps proj (ret a).
Proof. intros st. reflexivity. Qed.

Lemma keeps_throw {A} (e : JsError) : keeps proj (@throw A e).
Proof. intros st. reflexivity. Qed.

Lemma keeps_lift {A} (o : Outcome A) : keeps proj (lift o).
Proof. intros st. reflexivity. Qed.

Lemma keeps_get : keeps proj get.
Proof. intros st. reflexivity. Qed.

Lemma keeps_perform {A} (e : Event) (oracle : Trace -> Outcome A) :
  keeps proj (perform e oracle).
Proof. intros st. apply proj_record. Qed.

Lemma keeps_console (level : LogLevel) (line : string) : keeps proj (console level line).
Proof. intros st. apply proj_record. Qed.

Lemma keeps_fresh : keeps proj fresh.
Proof. intros st. apply proj_bump. Qed.

Lemma keeps_modify (f : State -> State) :
  (forall st, proj (f st) = proj st) -> keeps proj (modify f).
Proof. intros H st. apply H. Qed.

Lemma keeps_bind {A B} (c : M A) (k : A -> M B) :
  keeps proj c -> (forall a, keeps proj (k a)) -> keeps proj (bind c k).
Proof.
  intros Hc Hk st. unfold bind. specialize (Hc st).
  destruct (c st) as [[a|e] st1]; cbn [snd] in *; [|exact Hc].
  now rewrite (Hk a st1).
Qed.

Lemma keeps_try_catch {A} (c : M A) (handler : JsError -> M A) :
  keeps proj c -> (forall e, keeps proj (handler e)) -> keeps proj (try_catch c handler).
Proof.
  intros Hc Hh st. unfold try_catch. specialize (Hc st).
  destruct (c st) as [[a|e] st1]; cbn [snd] in *; [exact Hc|].
  now rewrite (Hh e st1).
Qed.

Lemma keeps_if {A} (b : bool) (x y : M A) :
  keeps proj x -> keeps proj y -> keeps proj (if b then x else y).
Proof. now destruct b. Qed.

Lemma keeps_when (b : bool) (c : M unit) : keeps proj c -> keeps proj (when b c).
Proof. intros H. unfold when. destruct b; [exact H | apply keeps_ret]. Qed.

End Keeps.

Lemma keeps_run {X A} (proj : State -> X) (c : M A) (st st1 : State) (o : Outcome A) :
  keeps proj c -> c st = (o, st1) -> proj st1 = proj st.
Proof. intros Hc E. specialize (Hc st). now rewrite E in Hc. Qed.

Ltac keep :=
  repeat (cbv zeta; intros;
          first [ apply keeps_bind
                | apply keeps_try_catch
                | apply keeps_when
                | apply keeps_if
                | apply keeps_ret
                | apply keeps_throw
                | apply keeps_lift
                | apply keeps_get
                | apply keeps_console; reflexivity
                | apply keeps_fresh; reflexivity
                | apply keeps_perform; reflexivity
                | apply keeps_modify; reflexivity
                | match goal with
                  | |- keeps _ (match ?x with _ => _ end) => destruct x
                  end ]).

Section StepShapes.

Variable W : World.

Lemma load_keeps_env : keeps OPENAI_API_KEY (loadMastraModules W).
Proof. unfold loadMastraModules. keep. Qed.

Lemma load_keeps_client : keeps mcpClient (loadMastraModules W).
Proof. unfold loadMastraModules. keep. Qed.

Lemma client_keeps_env : keeps OPENAI_API_KEY (ensure_client W).
Proof. unfold ensure_client. keep. Qed.

Lemma client_keeps_modules : keeps mastraModules (ensure_client W).
Proof. unfold ensure_client. keep. Qed.

Lemma tools_keep_env : keeps OPENAI_API_KEY (obtain_tools W).
Proof. unfold obtain_tools. keep. Qed.

Lemma tools_keep_modules : keeps mastraModules (obtain_tools W).
Proof. unfold obtain_tools. keep. Qed.

Lemma tools_keep_client : keeps mcpClient (obtain_tools W).
Proof. unfold obtain_tools. keep. Qed.

Lemma memory_keeps_env (k : JsVal) : keeps OPENAI_API_KEY (open_memory W k).
Proof. unfold open_memory. keep. Qed.

Lemma memory_keeps_modules (k : JsVal) : keeps mastraModules (open_memory W k).
Proof. unfold open_memory. keep. Qed.

Lemma memory_keeps_client (k : JsVal) : keeps mcpClient (open_memory W k).
Proof. unfold open_memory. keep. Qed.

Lemma agent_keeps_env (k : JsVal) (ts : ToolSet) (m : Memory) :
  keeps OPENAI_API_KEY (construct_agent W k ts m).
Proof. unfold construct_agent. keep. Qed.

Lemma agent_keeps_modules (k : JsVal) (ts : ToolSet) (m : Memory) :
  keeps mastraModules (construct_agent W k ts m).
Proof. unfold construct_agent. keep. Qed.

Lemma agent_keeps_client (k : JsVal) (ts : ToolSet) (m : Memory) :
  keeps mcpClient (construct_agent W k ts m).
Proof. unfold construct_agent. keep. Qed.

Lemma load_ok_shape (st st1 : State) :
  loadMastraModules W st = (Ok tt, st1) ->
  mastraModules st1 = true
  /\ exists t, trace st1 = (trace st ++ t)%list
               /\ filter build_event t
                  = if mastraModules st then [] else [EImportModules].
Proof.
  unfold loadMastraModules, try_catch, bind, get, perform, console, modify, ret, throw.
  destruct (mastraModules st) eqn:Hm.
  - intros H. injection H as <-. split; [exact Hm|]. exists []. now rewrite app_nil_r.
  - destruct (import_modules W (trace st)) as [[]|e]; [|discriminate].
    intros H. injection H as <-. split; [reflexivity|].
    eexists. split; [cbn [record set_modules trace]; rewrite <- app_assoc; reflexivity|].
    reflexivity.
Qed.

Lemma client_ok_shape (st st1 : State) :
  ensure_client W st = (Ok tt, st1) ->
  is_some (mcpClient st1) = true
  /\ exists t, trace st1 = (trace st ++ t)%list
               /\ filter build_event t
                  = if is_some (mcpClient st) then [] else [ENewMCPClient].
Proof.
  unfold ensure_client, when, bind, get, perform, fresh, modify, ret.
  destruct (mcpClient st) as [c|] eqn:Hc; cbn [is_some negb].
  - intros H. injection H as <-. rewrite Hc. split; [reflexivity|].
    exists []. now rewrite app_nil_r.
  - destruct (new_MCPClient W (trace st)) as [[]|e]; [|discriminate].
    intros H. injection H as <-. split; [reflexivity|].
    eexists. split; [reflexivity | reflexivity].
Qed.

(** Lines 84-90, by what [getTools] answers. *)
Lemma obtain_tools_run (st : State) :
  obtain_tools W st
  = match getTools W (trace st) with
    | Ok ts => (Ok ts, record connected_line (record EGetTools st))
    | Throw e =>
        match read_message e with
        | Some _ => (Ok [], record (tools_warning e) (record EGetTools st))
        | None => (Throw (unreadable e), record EGetTools st)
        end
    end.
Proof.
  unfold obtain_tools, try_catch, bind, perform, console, modify, ret, throw.
  destruct (getTools W (trace st)) as [ts|e]; [reflexivity|].
  destruct (read_message e); reflexivity.
Qed.

Lemma tools_shape (st st1 : State) (ts : ToolSet) :
  obtain_tools W st = (Ok ts, st1) ->
  exists answer,
    st1 = record answer (record EGetTools st)
    /\ build_event answer = false
    /\ ((getTools W (trace st) = Ok ts /\ answer = connected_line)
        \/ (exists e, getTools W (trace st) = Throw e
                      /\ read_message e <> None
                      /\ ts = []
                      /\ answer = tools_warning e)).
Proof.
  rewrite obtain_tools_run.
  destruct (getTools W (trace st)) as [ts0|e].
  - intros H. injection H as <- <-. exists connected_line.
    split; [reflexivity|]. split; [reflexivity|]. now left.
  - destruct (read_message e) as [m|] eqn:Hm; [|discriminate].
    intros H. injection H as <- <-. exists (tools_warning e).
    split; [reflexivity|]. split; [reflexivity|]. right. exists e.
    split; [reflexivity|]. split; [congruence|]. split; reflexivity.
Qed.

Lemma memory_shape (k : JsVal) (st st1 : State) (m : Memory) :
  open_memory W k st = (Ok m, st1) ->
  exists t,
    trace st1 = (trace st ++ t)%list
    /\ filter build_event t
       = ((if existsSync W (trace st) (data_dir W) then [] else [EMkdir (data_dir W)])
            ++ [ENewMemory (memory_url W) k])%list.
Proof.
  unfold open_memory, when, bind, get, perform, fresh, console, modify, ret.
  fold (data_dir W).
  destruct (existsSync W (trace st) (data_dir W)); cbn [negb].
  - cbn [record trace].
    destruct (new_Memory W _) as [[]|e]; [|discriminate].
    intros H. injection H as _ <-. eexists.
    split; [cbn [bump_ref record trace]; rewrite <- app_assoc; reflexivity|].
    reflexivity.
  - destruct (mkdirSync W (trace st) (data_dir W)) as [[]|e]; [|discriminate].
    cbn [record trace].
    destruct (new_Memory W _) as [[]|e]; [|discriminate].
    intros H. injection H as _ <-. eexists.
    split; [cbn [bump_ref record trace]; rewrite <- !app_assoc; reflexivity|].
    reflexivity.
Qed.

End StepShapes.

(** ** The course of a build *)

Section BuildCourse.

Variable W : World.

Lemma build_agent_shape (k : JsVal) (st st' : State) (h : Agent) :
  build_agent W k st = (Ok h, st') ->
  mastraModules st' = true
  /\ is_some (mcpClient st') = true
  /\ OPENAI_API_KEY st' = Some (to_string k)
  /\ exists before answer after,
       trace st' = (trace st ++ before ++ EGetTools :: answer :: after)%list
       /\ filter build_event before = provisioning st
       /\ tools_answer W (trace st ++ before)%list h answer
       /\ filter build_event after
          = storage_and_agent W (trace st ++ before ++ [EGetTools; answer])%list k h.
Proof.
  unfold build_agent. intros H.
  apply bind_ok in H as ([] & s1 & E1 & H).
  apply bind_ok in H as ([] & s2 & E2 & H).
  apply bind_ok in H as ([] & s3 & E3 & H).
  apply bind_ok in H as (ts & s4 & E4 & H).
  apply bind_ok in H as (m & s5 & E5 & H).
  unfold modify in E1. injection E1 as <-.
  destruct (load_ok_shape _ _ _ E2) as (M2 & t2 & T2 & F2).
  destruct (client_ok_shape _ _ _ E3) as (C3 & t3 & T3 & F3).
  destruct (tools_shape _ _ _ _ E4) as (answer & S4 & B4 & G4).
  destruct (memory_shape _ _ _ _ _ E5) as (t5 & T5 & F5).
  destruct (construct_agent_ok _ _ _ _ _ _ _ H) as (_ & _ & Hts & _ & _ & _ & p & _ & T6).
  split.
  { rewrite (keeps_run _ _ _ _ _ (agent_keeps_modules W k ts m) H),
      (keeps_run _ _ _ _ _ (memory_keeps_modules W k) E5),
      (keeps_run _ _ _ _ _ (tools_keep_modules W) E4),
      (keeps_run _ _ _ _ _ (client_keeps_modules W) E3). exact M2. }
  split.
  { rewrite (keeps_run _ _ _ _ _ (agent_keeps_client W k ts m) H),
      (keeps_run _ _ _ _ _ (memory_keeps_client W k) E5),
      (keeps_run _ _ _ _ _ (tools_keep_client W) E4). exact C3. }
  split.
  { rewrite (keeps_run _ _ _ _ _ (agent_keeps_env W k ts m) H),
      (keeps_run _ _ _ _ _ (memory_keeps_env W k) E5),
      (keeps_run _ _ _ _ _ (tools_keep_env W) E4),
      (keeps_run _ _ _ _ _ (client_keeps_env W) E3),
      (keeps_run _ _ _ _ _ (load_keeps_env W) E2). reflexivity. }
  assert (T3' : trace s3 = (trace st ++ t2 ++ t3)%list).
  { rewrite T3, T2. cbn [set_env trace]. now rewrite <- app_assoc. }
  assert (T4 : trace s4 = (trace st ++ (t2 ++ t3) ++ [EGetTools; answer])%list).
  { rewrite S4. cbn [record trace]. rewrite T3', <- !app_assoc. reflexivity. }
  exists (t2 ++ t3)%list, answer. eexists. split; [|split; [|split]].
  - rewrite T6, T5, T4, <- !app_assoc. cbn [app]. reflexivity.
  - rewrite filter_app, F2, F3. unfold provisioning.
    rewrite (keeps_run _ _ _ _ _ (load_keeps_client W) E2). reflexivity.
  - unfold tools_answer. rewrite Hts, <- T3'. exact G4.
  - rewrite filter_app, F5, <- T4. unfold storage_and_agent.
    rewrite Hts, <- app_assoc. reflexivity.
Qed.

Lemma previewable_preview (k : JsVal) :
  previewable k = true <-> exists p, key_preview k = Ok p.
Proof.
  unfold previewable, key_preview. split.
  - intros H. destruct (truthy k); [|eauto].
    destruct k; try discriminate H; eauto.
  - intros [p H]. destruct (truthy k); [|reflexivity].
    destruct k; try discriminate H; reflexivity.
Qed.

(** With a credential that passes the first line and no agent cached for
    it, [initializeTeachingAssistant] is the guarded build on a state
    that differs from the one it was called in by console lines and the
    emptied cache. *)
Lemma init_enters_build (k : JsVal) (st : State) :
  previewable k = true ->
  cached_for st k = false ->
  exists sb t0,
    initializeTeachingAssistant W k st = build_or_fail W k sb
    /\ trace sb = (trace st ++ t0)%list
    /\ filter build_event t0 = []
    /\ teachingAssistantAgent sb = None
    /\ currentApiKey sb
       = (if is_some (teachingAssistantAgent st) then JNull else currentApiKey st)
    /\ mastraModules sb = mastraModules st
    /\ mcpClient sb = mcpClient st
    /\ OPENAI_API_KEY sb = OPENAI_API_KEY st
    /\ next_ref sb = next_ref st.
Proof.
  intros Hp Hc. apply previewable_preview in Hp as [p Hp].
  unfold initializeTeachingAssistant. unfold bind at 1. unfold lift. rewrite Hp.
  unfold bind, console, modify, get, when, ret.
  cbn [record teachingAssistantAgent currentApiKey].
  unfold cached_for in Hc.
  destruct (teachingAssistantAgent st) as [a|] eqn:Ha; cbn [is_some andb negb] in *.
  - rewrite Hc. cbn [negb].
    cbn [record teachingAssistantAgent currentApiKey set_key set_agent].
    eexists. eexists. split; [reflexivity|].
    split; [cbn [record trace set_key set_agent]; rewrite <- app_assoc; reflexivity|].
    repeat split.
  - cbn [record teachingAssistantAgent currentApiKey]. rewrite Ha.
    eexists. eexists. split; [reflexivity|].
    split; [reflexivity|]. repeat split. exact Ha.
Qed.

Lemma fails_clean_bind {A B} (ok : Event -> bool) (c : M A) (k : A -> M B) :
  monotone ok c -> (forall a, fails_clean (k a)) -> fails_clean (bind c k).
Proof.
  intros Hc Hk st e st' Ha H. unfold bind in H. specialize (Hc st).
  destruct (c st) as [[a|e0] st1]; cbn [snd] in Hc; destruct Hc as (_ & Ha1 & Hk1 & _).
  - destruct (Hk a st1 e st') as [R1 R2]; [congruence | exact H |].
    split; [exact R1 | congruence].
  - injection H as <- <-. split; congruence.
Qed.

Lemma fails_clean_construct_agent (k : JsVal) (ts : ToolSet) (m : Memory) :
  fails_clean (construct_agent W k ts m).
Proof.
  intros st e st' Ha.
  unfold construct_agent, bind, lift, console, modify, perform, fresh, ret.
  destruct (key_preview k) as [p|e0].
  - cbn [record trace].
    destruct (new_Agent W _) as [[]|e1]; [discriminate|].
    intros H. injection H as <- <-. split; [exact Ha | reflexivity].
  - intros H. injection H as <- <-. split; [exact Ha | reflexivity].
Qed.

Lemma fails_clean_build_agent (k : JsVal) : fails_clean (build_agent W k).
Proof.
  unfold build_agent.
  apply (fails_clean_bind no_agent_event); [mono|intros _].
  apply (fails_clean_bind no_agent_event); [apply monotone_loadMastraModules|intros _].
  apply (fails_clean_bind no_agent_event); [apply monotone_ensure_client|intros _].
  apply (fails_clean_bind no_agent_event); [apply monotone_obtain_tools|intros ts].
  apply (fails_clean_bind no_agent_event); [apply monotone_open_memory|intros m].
  apply fails_clean_construct_agent.
Qed.

(** What the [catch] of lines 210-213 does with a failed build. *)
Lemma build_or_fail_throw (k : JsVal) (sb st' : State) (e : JsError) :
  build_or_fail W k sb = (Throw e, st') ->
  exists s1, build_agent W k sb = (Throw e, s1) /\ st' = record (failure_line e) s1.
Proof.
  unfold build_or_fail, try_catch.
  destruct (build_agent W k sb) as [[a|e0] s1]; [discriminate|].
  unfold bind, console, modify, throw. intros H. injection H as <- <-. eauto.
Qed.

Lemma build_or_fail_ok (k : JsVal) (sb st' : State) (h : Agent) :
  build_or_fail W k sb = (Ok h, st') -> build_agent W k sb = (Ok h, st').
Proof.
  unfold build_or_fail, try_catch.
  destruct (build_agent W k sb) as [[a|e0] s1]; [auto|].
  unfold bind, console, modify, throw. discriminate.
Qed.

Lemma no_agent_no_stream (messages : list Message) (options : StreamOptions) (st : State) :
  teachingAssistantAgent st = None ->
  fst (createMastraStream W messages options st) = Throw not_initialized.
Proof.
  intros Ha. unfold createMastraStream, try_catch, bind, get. rewrite Ha. reflexivity.
Qed.

(** X11. A build that returns an agent goes through its collaborators in
    a fixed order and asks each at most once. Before the tools are asked
    for, the modules are imported only if they were not loaded and the MCP
    client is constructed only if there was none. The agent carries the
    tools [getTools] returned on the trace it was asked on, and the line
    after the call says the server is connected; or [getTools] threw
    there an error whose message can be read, the agent has no tool and
    the line is the warning with that message. After that the data
    directory is created exactly when [existsSync] says it is missing,
    then the memory is constructed and last the agent. Afterwards the
    modules are loaded and the client is kept. *)
Theorem build_follows_a_fixed_course (k : JsVal) (st st' : State) (h : Agent) :
  initializeTeachingAssistant W k st = (Ok h, st') ->
  cached_for st k = false ->
  mastraModules st' = true
  /\ is_some (mcpClient st') = true
  /\ exists before answer after,
       trace st' = (trace st ++ before ++ EGetTools :: answer :: after)%list
       /\ filter build_event before = provisioning st
       /\ tools_answer W (trace st ++ before)%list h answer
       /\ filter build_event after
          = storage_and_agent W (trace st ++ before ++ [EGetTools; answer])%list k h.
Proof.
  intros Hi Hc.
  destruct (init_ok_post _ _ _ _ _ Hi) as (_ & _ & _ & Hp).
  apply previewable_preview in Hp.
  destruct (init_enters_build k st Hp Hc)
    as (sb & t0 & E & T0 & F0 & _ & _ & Hm & Hcl & _).
  rewrite E in Hi. apply build_or_fail_ok in Hi.
  destruct (build_agent_shape _ _ _ _ Hi)
    as (M & C & _ & before & answer & after & T & F & G & D).
  split; [exact M|]. split; [exact C|].
  exists (t0 ++ before)%list, answer, after.
  rewrite T0 in T, G, D. rewrite <- !app_assoc in G, D.
  split; [rewrite T, <- !app_assoc; reflexivity|].
  split; [rewrite filter_app, F0, F; unfold provisioning; now rewrite Hm, Hcl|].
  split; [exact G | rewrite <- !app_assoc; exact D].
Qed.

(** X12. When [initializeTeachingAssistant] throws for a credential that
    is a string or falsy, the cache is empty afterwards, also when it held
    a working agent of another credential before: that agent is gone and
    the recorded credential is [null]. The error is the one the failed
    step threw, written to the console last, and every later
    [createMastraStream] is refused as not initialized. *)
Theorem failed_initialisation_empties_cache (k : JsVal) (st st' : State) (e : JsError) :
  initializeTeachingAssistant W k st = (Throw e, st') ->
  previewable k = true ->
  teachingAssistantAgent st' = None
  /\ currentApiKey st'
     = (if is_some (teachingAssistantAgent st) then JNull else currentApiKey st)
  /\ (exists t, trace st' = (t ++ [failure_line e])%list)
  /\ forall messages options,
       fst (createMastraStream W messages options st') = Throw not_initialized.
Proof.
  intros Hi Hp.
  assert (Hc : cached_for st k = false).
  { destruct (cached_for st k) eqn:Hc; [|reflexivity]. exfalso.
    unfold cached_for in Hc. apply andb_true_iff in Hc as [Ha Hk].
    destruct (teachingAssistantAgent st) as [a|] eqn:Hag; [|discriminate].
    apply previewable_preview in Hp as [p Hp].
    rewrite (init_reuse _ _ _ _ _ Hp Hag Hk) in Hi. discriminate. }
  destruct (init_enters_build k st Hp Hc)
    as (sb & t0 & E & T0 & _ & Ha & Hk & _).
  rewrite E in Hi. apply build_or_fail_throw in Hi as (s1 & Hb & ->).
  destruct (fails_clean_build_agent k sb e s1 Ha Hb) as [Ha1 Hk1].
  split; [exact Ha1|]. split; [cbn [record currentApiKey]; congruence|].
  split.
  - exists (trace s1). apply trace_record.
  - intros messages options. apply no_agent_no_stream. exact Ha1.
Qed.

End BuildCourse.

(** ** A build whose tool server fails *)

Section ToolFailure.

Variable W : World.

Hypothesis imports_ok : forall t, import_modules W t = Ok tt.
Hypothesis client_ok : forall t, new_MCPClient W t = Ok tt.
Hypothesis mkdir_ok : forall t d, mkdirSync W t d = Ok tt.
Hypothesis memory_ok : forall t, new_Memory W t = Ok tt.
Hypothesis agent_ok : forall t, new_Agent W t = Ok tt.

Lemma bind_run {A B} (c : M A) (k : A -> M B) (st st1 : State) (a : A) :
  c st = (Ok a, st1) -> bind c k st = k a st1.
Proof. intros E. unfold bind. now rewrite E. Qed.

Lemma loadMastraModules_succeeds (st : State) :
  exists st1, loadMastraModules W st = (Ok tt, st1).
Proof.
  unfold loadMastraModules, try_catch, bind, get, perform, console, modify, ret.
  destruct (mastraModules st); [eauto|]. rewrite imports_ok. eauto.
Qed.

Lemma ensure_client_succeeds (st : State) :
  exists st1, ensure_client W st = (Ok tt, st1).
Proof.
  unfold ensure_client, when, bind, get, perform, fresh, modify, ret.
  destruct (mcpClient st); cbn [is_some negb]; [eauto|]. rewrite client_ok. eauto.
Qed.

Lemma open_memory_succeeds (k : JsVal) (st : State) :
  exists m st1, open_memory W k st = (Ok m, st1).
Proof.
  unfold open_memory, when, bind, get, perform, fresh, console, modify, ret.
  destruct (existsSync W (trace st) _); cbn [negb].
  - cbn [record trace]. rewrite memory_ok. eauto.
  - rewrite mkdir_ok. cbn [record trace]. rewrite memory_ok. eauto.
Qed.

Lemma construct_agent_succeeds (c : string) (ts : ToolSet) (m : Memory) (st : State) :
  exists h st1, construct_agent W (JStr c) ts m st = (Ok h, st1).
Proof.
  unfold construct_agent, bind, lift, perform, fresh, console, modify, ret.
  assert (Hp : exists p, key_preview (JStr c) = Ok p).
  { unfold key_preview. destruct (truthy (JStr c)); eauto. }
  destruct Hp as [p ->]. cbn [record trace]. rewrite agent_ok. eauto.
Qed.

(** Up to the call of [getTools] a build goes through; [s3] is the state
    in which the tools are asked for. *)
Lemma build_agent_reaches_tools (c : string) (sb : State) :
  exists s3 t,
    trace s3 = (trace sb ++ t)%list
    /\ filter build_event t = provisioning sb
    /\ teachingAssistantAgent s3 = teachingAssistantAgent sb
    /\ build_agent W (JStr c) sb
       = (courseTools <- obtain_tools W ;;
          m <- open_memory W (JStr c) ;;
          construct_agent W (JStr c) courseTools m) s3.
Proof.
  set (s1 := set_env (to_string (JStr c)) sb).
  destruct (loadMastraModules_succeeds s1) as [s2 E2].
  destruct (ensure_client_succeeds s2) as [s3 E3].
  destruct (load_ok_shape _ _ _ E2) as (_ & t2 & T2 & F2).
  destruct (client_ok_shape _ _ _ E3) as (_ & t3 & T3 & F3).
  pose proof (monotone_run _ _ _ _ _ (monotone_loadMastraModules W) E2) as (_ & A2 & _).
  pose proof (monotone_run _ _ _ _ _ (monotone_ensure_client W) E3) as (_ & A3 & _).
  exists s3, (t2 ++ t3)%list. split; [|split; [|split]].
  - rewrite T3, T2. unfold s1. cbn [set_env trace]. now rewrite <- app_assoc.
  - rewrite filter_app, F2, F3. unfold provisioning.
    rewrite (keeps_run _ _ _ _ _ (load_keeps_client W) E2). reflexivity.
  - rewrite A3, A2. reflexivity.
  - unfold build_agent. unfold bind at 1. unfold modify. fold s1.
    rewrite (bind_run _ _ _ _ _ E2), (bind_run _ _ _ _ _ E3). reflexivity.
Qed.

(** Once the tools are there the build goes through. *)
Lemma build_agent_after_tools (c : string) (ts : ToolSet) (s4 : State) :
  exists h st' after,
    (m <- open_memory W (JStr c) ;; construct_agent W (JStr c) ts m) s4 = (Ok h, st')
    /\ tools h = ts
    /\ teachingAssistantAgent st' = Some h
    /\ currentApiKey st' = JStr c
    /\ trace st' = (trace s4 ++ after)%list.
Proof.
  destruct (open_memory_succeeds (JStr c) s4) as (m & s5 & E5).
  destruct (construct_agent_succeeds c ts m s5) as (h & s6 & E6).
  destruct (construct_agent_ok _ _ _ _ _ _ _ E6) as (_ & _ & Hts & Ha & Hk & _ & p & _ & T6).
  pose proof (monotone_run _ _ _ _ _ (monotone_open_memory W (JStr c)) E5)
    as (_ & _ & _ & t5 & T5 & _).
  exists h, s6. eexists.
  split; [rewrite (bind_run _ _ _ _ _ E5); exact E6|].
  split; [exact Hts|]. split; [exact Ha|]. split; [exact Hk|].
  rewrite T6, T5, <- app_assoc. reflexivity.
Qed.

(** C6. In a world whose other collaborators answer, what [getTools]
    does decides the build of an agent for a string credential that is
    not cached. When it returns, the agent has the tools it returned.
    When it throws an error whose message can be read, the build still
    returns an agent: the tool set is empty, the agent is cached with the
    credential, and the warning with the message follows the call in the
    trace. When the promise rejects with [null] or [undefined], reading
    the message for that warning throws a TypeError inside the handler:
    [initializeTeachingAssistant] throws it after the line that reports
    the failed initialisation, no warning is written and no agent is
    cached. So a failure of the tool server is tolerated exactly when the
    message of what it threw can be read. *)
Theorem tool_rejection_decides_initialisation (c : string) (st : State) :
  cached_for st (JStr c) = false ->
  exists before,
    filter build_event before = provisioning st
    /\ match getTools W (trace st ++ before)%list with
       | Ok ts =>
           exists h st' after,
             initializeTeachingAssistant W (JStr c) st = (Ok h, st')
             /\ tools h = ts
             /\ teachingAssistantAgent st' = Some h
             /\ currentApiKey st' = JStr c
             /\ trace st'
                = (trace st ++ before ++ EGetTools :: connected_line :: after)%list
       | Throw e =>
           match read_message e with
           | Some _ =>
               exists h st' after,
                 initializeTeachingAssistant W (JStr c) st = (Ok h, st')
                 /\ tools h = []
                 /\ teachingAssistantAgent st' = Some h
                 /\ currentApiKey st' = JStr c
                 /\ trace st'
                    = (trace st ++ before ++ EGetTools :: tools_warning e :: after)%list
           | None =>
               exists err st',
                 initializeTeachingAssistant W (JStr c) st = (Throw err, st')
                 /\ err_name err = "TypeError"
                 /\ teachingAssistantAgent st' = None
                 /\ trace st'
                    = (trace st ++ before ++ [EGetTools; failure_line err])%list
           end
       end.
Proof.
  intros Hc.
  assert (Hp : previewable (JStr c) = true).
  { unfold previewable. cbn [is_string]. apply orb_true_r. }
  destruct (init_enters_build W (JStr c) st Hp Hc)
    as (sb & t0 & E & T0 & F0 & Ha & _ & Hm & Hcl & _).
  destruct (build_agent_reaches_tools c sb) as (s3 & t & T3 & F3 & A3 & Hb).
  assert (T : trace s3 = (trace st ++ t0 ++ t)%list).
  { rewrite T3, T0, <- app_assoc. reflexivity. }
  exists (t0 ++ t)%list. split.
  { rewrite filter_app, F0, F3. unfold provisioning. now rewrite Hm, Hcl. }
  rewrite <- T.
  assert (Hrun : initializeTeachingAssistant W (JStr c) st
                 = try_catch
                     (fun s => let (o, s4) := obtain_tools W s in
                               match o with
                               | Ok ts =>
                                   (m <- open_memory W (JStr c) ;;
                                    construct_agent W (JStr c) ts m) s4
                               | Throw e => (Throw e, s4)
                               end)
                     (fun error =>
                        console LogError
                          ("[Mastra] Failed to initialize Teaching Assistant agent: "
                             ++ render error) ;;
                        throw error) s3).
  { rewrite E. unfold build_or_fail, try_catch. rewrite Hb. reflexivity. }
  rewrite Hrun. unfold try_catch. rewrite obtain_tools_run.
  destruct (getTools W (trace s3)) as [ts|e].
  - destruct (build_agent_after_tools c ts (record connected_line (record EGetTools s3)))
      as (h & st' & after & -> & Hts & Hag & Hk & Tr).
    exists h, st', after. repeat (split; [assumption || reflexivity|]).
    rewrite Tr. cbn [record trace]. rewrite T, <- !app_assoc. reflexivity.
  - destruct (read_message e) as [msg|].
    + destruct (build_agent_after_tools c [] (record (tools_warning e) (record EGetTools s3)))
        as (h & st' & after & -> & Hts & Hag & Hk & Tr).
      exists h, st', after. repeat (split; [assumption || reflexivity|]).
      rewrite Tr. cbn [record trace]. rewrite T, <- !app_assoc. reflexivity.
    + unfold bind, console, modify, throw. eexists. eexists.
      split; [reflexivity|]. split; [reflexivity|].
      split; [cbn [record teachingAssistantAgent]; congruence|].
      cbn [record trace]. rewrite T, <- !app_assoc. reflexivity.
Qed.

End ToolFailure.

Lemma tool_rejection_decides_initialisation_witness :
  exists before err st',
    getTools world_rejecting_undefined (trace initial ++ before)%list
    = Throw (Thrown JUndefined)
    /\ initializeTeachingAssistant world_rejecting_undefined key_a initial
       = (Throw err, st')
    /\ err_name err = "TypeError"
    /\ teachingAssistantAgent st' = None
    /\ trace st' = (trace initial ++ before ++ [EGetTools; failure_line err])%list.
Proof.
  destruct (tool_rejection_decides_initialisation world_rejecting_undefined
              (fun _ => eq_refl) (fun _ => eq_refl) (fun _ _ => eq_refl)
              (fun _ => eq_refl) (fun _ => eq_refl) "sk-aaaaaaaa" initial eq_refl)
    as (before & _ & err & st' & H).
  exists before, err, st'. split; [reflexivity | exact H].
Defined.

(** ** What holds in every state *)

Section Settled.

Variable W : World.

Lemma validate_keeps_agent (k : JsVal) : keeps teachingAssistantAgent (validateApiKey W k).
Proof. unfold validateApiKey. keep. Qed.

Lemma validate_keeps_key (k : JsVal) : keeps currentApiKey (validateApiKey W k).
Proof. unfold validateApiKey. keep. Qed.

Lemma validate_keeps_modules (k : JsVal) : keeps mastraModules (validateApiKey W k).
Proof. unfold validateApiKey. keep. Qed.

Lemma validate_keeps_client (k : JsVal) : keeps mcpClient (validateApiKey W k).
Proof. unfold validateApiKey. keep. Qed.

Lemma validate_keeps_env (k : JsVal) : keeps OPENAI_API_KEY (validateApiKey W k).
Proof. unfold validateApiKey. keep. Qed.

Lemma settled_frame (st st' : State) :
  teachingAssistantAgent st' = teachingAssistantAgent st ->
  currentApiKey st' = currentApiKey st ->
  mastraModules st' = mastraModules st ->
  mcpClient st' = mcpClient st ->
  settled st -> settled st'.
Proof. unfold settled. intros -> -> -> ->. auto. Qed.

Lemma stream_frame (messages : list Message) (options : StreamOptions) (st : State) :
  let st' := snd (createMastraStream W messages options st) in
  teachingAssistantAgent st' = teachingAssistantAgent st
  /\ currentApiKey st' = currentApiKey st
  /\ mastraModules st' = mastraModules st
  /\ mcpClient st' = mcpClient st
  /\ OPENAI_API_KEY st' = OPENAI_API_KEY st
  /\ exists t, trace st' = (trace st ++ t)%list /\ filter build_event t = [].
Proof.
  destruct (teachingAssistantAgent st) as [a|] eqn:Ha.
  - destruct (createMastraStream_frame W messages options st a Ha)
      as ((H1 & H2 & _ & H4 & H5 & H6) & t & Ht & Hq & _).
    cbv zeta. repeat split; auto.
    exists t. split; [exact Ht|]. exact (proj1 (quiet_build_events t Hq)).
  - cbv zeta. unfold createMastraStream, try_catch, bind, get. rewrite Ha.
    cbn. repeat split; auto. eexists. split; reflexivity.
Qed.

Lemma init_settled (k : JsVal) (st : State) :
  settled st -> settled (snd (initializeTeachingAssistant W k st)).
Proof.
  intros Hs.
  destruct (previewable k) eqn:Hp.
  - destruct (cached_for st k) eqn:Hc.
    + unfold cached_for in Hc. apply andb_true_iff in Hc as [Ha Hk].
      destruct (teachingAssistantAgent st) as [a|] eqn:Hag; [|discriminate].
      apply previewable_preview in Hp as [p Hp].
      rewrite (init_reuse _ _ _ _ _ Hp Hag Hk). cbn [snd].
      apply (settled_frame st); auto.
    + destruct (init_enters_build W k st Hp Hc)
        as (sb & t0 & E & _ & _ & Ha & Hk & _).
      rewrite E.
      destruct (build_or_fail W k sb) as [[h|e] st'] eqn:Hb; cbn [snd].
      * apply build_or_fail_ok in Hb.
        destruct (build_agent_ok _ _ _ _ _ Hb) as (Hag & Hkey & Hm & _).
        destruct (build_agent_shape _ _ _ _ _ Hb) as (M & C & _).
        unfold settled. rewrite Hag. repeat split; congruence.
      * apply build_or_fail_throw in Hb as (s1 & Hb & ->).
        destruct (fails_clean_build_agent W k sb e s1 Ha Hb) as [Ha1 Hk1].
        unfold settled in *. cbn [record teachingAssistantAgent currentApiKey].
        rewrite Ha1, Hk1, Hk.
        destruct (teachingAssistantAgent st); [reflexivity | exact Hs].
  - assert (E : exists e, initializeTeachingAssistant W k st = (Throw e, st)).
    { unfold initializeTeachingAssistant. unfold bind at 1. unfold lift.
      destruct (key_preview k) as [p|e] eqn:Hk; [|eauto].
      assert (previewable k = true) by (apply previewable_preview; eauto). congruence. }
    destruct E as [e ->]. exact Hs.
Qed.

Lemma stream_settled (messages : list Message) (options : StreamOptions) (st : State) :
  settled st -> settled (snd (createMastraStream W messages options st)).
Proof.
  destruct (stream_frame messages options st) as (H1 & H2 & H3 & H4 & _).
  now apply settled_frame.
Qed.

Lemma validate_settled (k : JsVal) (st : State) :
  settled st -> settled (snd (validateApiKey W k st)).
Proof.
  apply settled_frame.
  - apply validate_keeps_agent.
  - apply validate_keeps_key.
  - apply validate_keeps_modules.
  - apply validate_keeps_client.
Qed.

Lemma chat_unfold (config : Config) (messages : list Message) (st : State) :
  streamChat (createStreamingLLM W config) messages st
  = match teachingAssistantAgent st with
    | Some _ => createMastraStream W messages (stream_options config) st
    | None =>
        match initializeTeachingAssistant W (cfg_apiKey config) st with
        | (Ok _, st1) => createMastraStream W messages (stream_options config) st1
        | (Throw e, st1) => (Throw e, st1)
        end
    end.
Proof.
  unfold createStreamingLLM. cbn [streamChat].
  unfold bind at 1. unfold get. unfold bind at 1. unfold when.
  destruct (teachingAssistantAgent st); cbn [is_some negb].
  - reflexivity.
  - unfold bind at 1.
    destruct (initializeTeachingAssistant W (cfg_apiKey config) st) as [[h|e] st1];
      reflexivity.
Qed.

Lemma chat_settled (config : Config) (messages : list Message) (st : State) :
  settled st -> settled (snd (streamChat (createStreamingLLM W config) messages st)).
Proof.
  intros Hs. rewrite chat_unfold.
  destruct (teachingAssistantAgent st) eqn:Ha.
  - now apply stream_settled.
  - pose proof (init_settled (cfg_apiKey config) st Hs) as Hi.
    destruct (initializeTeachingAssistant W (cfg_apiKey config) st) as [[h|e] st1];
      cbn [snd] in *; [now apply stream_settled | exact Hi].
Qed.

Lemma served_settled (st st' : State) : served W st st' -> settled st -> settled st'.
Proof.
  induction 1 as [|messages options st' _ IH|k st' _ IH|config messages st' _ IH];
    intros Hs.
  - exact Hs.
  - apply stream_settled. auto.
  - apply validate_settled. auto.
  - apply chat_settled. auto.
Qed.

(** X13. In every state the exported operations lead to, whatever they
    were called with and whatever failed on the way, the cache is
    coherent: a cached agent was built with the credential that is
    recorded, the modules are loaded and the MCP client exists; and when
    no agent is cached the recorded credential is [null]. *)
Theorem cache_is_coherent (st : State) : reachable W st -> settled st.
Proof.
  induction 1 as [|k st _ IH|messages options st _ IH|k st _ IH|config messages st _ IH].
  - reflexivity.
  - now apply init_settled.
  - now apply stream_settled.
  - now apply validate_settled.
  - now apply chat_settled.
Qed.

(** X14. Rotating the credential reuses what does not depend on it: when
    an agent was returned for [a] and, after any requests served since,
    one is returned for another credential [b], the second build imports
    no module and constructs no MCP client before it asks for the tools.
    Its agent carries what [getTools] answered on that trace (no tool
    when it threw an error whose message can be read); then the data
    directory is created exactly when [existsSync] says it is missing,
    and one memory and one agent are constructed, both with [b]. *)
Theorem rotation_keeps_modules_and_client
  (a b : JsVal) (st0 st1 st st2 : State) (h1 h2 : Agent) :
  settled st0 ->
  a <> b ->
  initializeTeachingAssistant W a st0 = (Ok h1, st1) ->
  served W st1 st ->
  initializeTeachingAssistant W b st = (Ok h2, st2) ->
  exists before answer after,
    trace st2 = (trace st ++ before ++ EGetTools :: answer :: after)%list
    /\ filter build_event before = []
    /\ tools_answer W (trace st ++ before)%list h2 answer
    /\ filter build_event after
       = storage_and_agent W (trace st ++ before ++ [EGetTools; answer])%list b h2.
Proof.
  intros Hs0 Hab H1 Hsv H2.
  pose proof (init_settled a st0 Hs0) as Hs1. rewrite H1 in Hs1. cbn [snd] in Hs1.
  pose proof (served_settled _ _ Hsv Hs1) as Hs.
  destruct (init_ok_post _ _ _ _ _ H1) as (Ha1 & Hk1 & _).
  apply strict_eq_eq in Hk1.
  destruct (served_keeps_cache _ _ _ _ Ha1 Hsv) as (Ha & Hk & _).
  unfold settled in Hs. rewrite Ha in Hs. destruct Hs as (_ & Hm & Hcl).
  assert (Hc : cached_for st b = false).
  { unfold cached_for. rewrite Ha. cbn [is_some andb].
    destruct (strict_eq (currentApiKey st) b) eqn:E; [|reflexivity].
    apply strict_eq_eq in E. congruence. }
  destruct (init_ok_post _ _ _ _ _ H2) as (_ & _ & _ & Hp).
  apply previewable_preview in Hp.
  destruct (init_enters_build W b st Hp Hc)
    as (sb & t0 & E & T0 & F0 & _ & _ & Hmb & Hcb & _).
  rewrite E in H2. apply build_or_fail_ok in H2.
  destruct (build_agent_shape _ _ _ _ _ H2)
    as (_ & _ & _ & before & answer & after & T & F & G & D).
  exists (t0 ++ before)%list, answer, after.
  rewrite T0 in T, G, D. rewrite <- !app_assoc in G, D.
  split; [rewrite T, <- !app_assoc; reflexivity|].
  split; [|split; [exact G | rewrite <- !app_assoc; exact D]].
  rewrite filter_app, F0, F. unfold provisioning. rewrite Hmb, Hcb, Hm.
  destruct (mcpClient st); [reflexivity | discriminate].
Qed.

(** X15. Serving requests (generation, validation, chat) on a state with
    a cached agent writes to the trace only: the agent, the recorded
    credential, the modules, the client and the environment variable stay
    as they are and no build event is added. Only
    [initializeTeachingAssistant] replaces a cached agent. *)
Theorem serving_only_writes_the_trace (st st' : State) (h : Agent) :
  teachingAssistantAgent st = Some h ->
  served W st st' ->
  teachingAssistantAgent st' = Some h
  /\ currentApiKey st' = currentApiKey st
  /\ mastraModules st' = mastraModules st
  /\ mcpClient st' = mcpClient st
  /\ OPENAI_API_KEY st' = OPENAI_API_KEY st
  /\ exists t, trace st' = (trace st ++ t)%list /\ filter build_event t = [].
Proof.
  intros Ha Hsv.
  induction Hsv as [|messages options st' _ IH|k st' _ IH|config messages st' _ IH].
  - repeat split; auto. exists []. split; [now rewrite app_nil_r | reflexivity].
  - destruct IH as (I1 & I2 & I3 & I4 & I5 & t' & T' & F').
    destruct (stream_frame messages options st') as (H1 & H2 & H3 & H4 & H5 & t & T & F).
    repeat split; try congruence.
    exists (t' ++ t)%list. split; [now rewrite T, T', app_assoc|].
    now rewrite filter_app, F', F.
  - destruct IH as (I1 & I2 & I3 & I4 & I5 & t' & T' & F').
    destruct (monotone_validateApiKey W k st') as (_ & _ & _ & t & T & Q).
    split; [now rewrite validate_keeps_agent|].
    split; [now rewrite validate_keeps_key|].
    split; [now rewrite validate_keeps_modules|].
    split; [now rewrite validate_keeps_client|].
    split; [now rewrite validate_keeps_env|].
    exists (t' ++ t)%list. split; [now rewrite T, T', app_assoc|].
    now rewrite filter_app, F', (proj1 (quiet_build_events t Q)).
  - destruct IH as (I1 & I2 & I3 & I4 & I5 & t' & T' & F').
    rewrite chat_unfold, I1.
    destruct (stream_frame messages (stream_options config) st')
      as (H1 & H2 & H3 & H4 & H5 & t & T & F).
    repeat split; try congruence.
    exists (t' ++ t)%list. split; [now rewrite T, T', app_assoc|].
    now rewrite filter_app, F', F.
Qed.

End Settled.

(** ** Module loading, cold starts and the environment variable *)

Section ColdStart.

Variable W : World.

Lemma load_asks_when_unloaded (st : State) :
  mastraModules st = false ->
  exists t, trace (snd (loadMastraModules W st)) = (trace st ++ EImportModules :: t)%list.
Proof.
  intros Hm.
  unfold loadMastraModules, try_catch, bind, get, perform, console, modify, ret, throw.
  rewrite Hm.
  destruct (import_modules W (trace st)) as [[]|e]; cbn [snd record set_modules trace];
    rewrite <- app_assoc; eexists; reflexivity.
Qed.

(** X16. [loadMastraModules] caches a successful load and nothing else:
    after it returned, the modules are loaded and a further call does
    nothing at all; when the import throws, the same error is rethrown
    after a console line, nothing is cached, and the next call imports
    again. *)
Theorem module_load_is_cached_on_success_only (st st1 : State) (o : Outcome unit) :
  loadMastraModules W st = (o, st1) ->
  match o with
  | Ok _ =>
      mastraModules st1 = true
      /\ loadMastraModules W st1 = (Ok tt, st1)
  | Throw e =>
      import_modules W (trace st) = Throw e
      /\ st1 = record (load_failure_line e) (record EImportModules st)
      /\ mastraModules st1 = false
      /\ exists t,
           trace (snd (loadMastraModules W st1)) = (trace st1 ++ EImportModules :: t)%list
  end.
Proof.
  intros H.
  assert (Hshape :
            match o with
            | Ok _ => mastraModules st1 = true
            | Throw e =>
                import_modules W (trace st) = Throw e
                /\ st1 = record (load_failure_line e) (record EImportModules st)
                /\ mastraModules st1 = false
            end).
  { revert H.
    unfold loadMastraModules, try_catch, bind, get, perform, console, modify, ret, throw.
    destruct (mastraModules st) eqn:Hm.
    - intros H. injection H as <- <-. exact Hm.
    - destruct (import_modules W (trace st)) as [[]|e] eqn:Hi;
        intros H; injection H as <- <-.
      + reflexivity.
      + split; [reflexivity|]. split; [reflexivity|]. exact Hm. }
  destruct o as [[]|e].
  - split; [exact Hshape|].
    unfold loadMastraModules, bind, get. rewrite Hshape. reflexivity.
  - destruct Hshape as (H1 & H2 & H3). repeat split; auto.
    apply load_asks_when_unloaded. exact H3.
Qed.

Lemma in_record_here (e : Event) (st : State) : In e (trace (record e st)).
Proof. rewrite trace_record. apply in_or_app. right. now left. Qed.

Lemma in_record_there (e x : Event) (st : State) :
  In x (trace st) -> In x (trace (record e st)).
Proof. intros H. rewrite trace_record. apply in_or_app. now left. Qed.

(** X17. A chat on a state without a cached agent initializes first,
    with the credential of the config: when that throws, the chat throws
    the same error in the same state and the agent is never called; when
    it returns an agent, the chat is the generation request on the state
    it left, and that request, on a conversation that is not empty and
    with a truthy credential, calls that agent with the credential of the
    config. *)
Theorem cold_chat_initialises_first
  (config : Config) (messages : list Message) (st : State) :
  teachingAssistantAgent st = None ->
  match initializeTeachingAssistant W (cfg_apiKey config) st with
  | (Throw e, st1) =>
      streamChat (createStreamingLLM W config) messages st = (Throw e, st1)
  | (Ok h, st1) =>
      streamChat (createStreamingLLM W config) messages st
      = createMastraStream W messages (stream_options config) st1
      /\ teachingAssistantAgent st1 = Some h
      /\ currentApiKey st1 = cfg_apiKey config
      /\ (messages <> [] ->
          truthy (cfg_apiKey config) = true ->
          In (EGenerate (agent_ref h) messages
                (generation_options W st1 (stream_options config)))
             (trace (snd (streamChat (createStreamingLLM W config) messages st)))
          /\ gen_apiKey (generation_options W st1 (stream_options config))
             = cfg_apiKey config)
  end.
Proof.
  intros Ha. rewrite chat_unfold, Ha.
  destruct (initializeTeachingAssistant W (cfg_apiKey config) st) as [[h|e] st1] eqn:Hi;
    [|reflexivity].
  destruct (init_ok_post _ _ _ _ _ Hi) as (Ha1 & Hk1 & _).
  apply strict_eq_eq in Hk1.
  split; [reflexivity|]. split; [exact Ha1|]. split; [exact Hk1|].
  intros Hne Ht. split; [|exact Hk1].
  rewrite (stream_reaches_agent W _ _ _ _ Ha1 Hne) by congruence.
  destruct (generate W _ h messages _) as [response|e];
    [destruct (createStreamFromMastraResponse response) as [stream|e]|];
    cbn [snd]; repeat first [apply in_record_here | apply in_record_there].
Qed.

Lemma build_agent_exports (k : JsVal) (st : State) :
  OPENAI_API_KEY (snd (build_agent W k st)) = Some (to_string k).
Proof.
  unfold build_agent. unfold bind at 1. unfold modify.
  assert (K : keeps OPENAI_API_KEY
                (loadMastraModules W ;;
                 ensure_client W ;;
                 courseTools <- obtain_tools W ;;
                 memory <- open_memory W k ;;
                 construct_agent W k courseTools memory)).
  { apply keeps_bind; try reflexivity; [apply load_keeps_env|intros _].
    apply keeps_bind; try reflexivity; [apply client_keeps_env|intros _].
    apply keeps_bind; try reflexivity; [apply tools_keep_env|intros ts].
    apply keeps_bind; try reflexivity; [apply memory_keeps_env|intros m].
    apply agent_keeps_env. }
  rewrite (K (set_env (to_string k) st)). reflexivity.
Qed.

(** X18. A build starts by writing the credential, as a string, to the
    environment variable [OPENAI_API_KEY], before anything can fail:
    whenever [initializeTeachingAssistant] gets past its first line
    without an agent cached for the credential, the variable holds the
    credential afterwards, whether an agent was returned or an error
    thrown ([undefined] is written as the string [undefined]). *)
Theorem build_exports_the_credential (k : JsVal) (st : State) :
  previewable k = true ->
  cached_for st k = false ->
  OPENAI_API_KEY (snd (initializeTeachingAssistant W k st)) = Some (to_string k).
Proof.
  intros Hp Hc.
  destruct (init_enters_build W k st Hp Hc) as (sb & t0 & E & _).
  rewrite E. unfold build_or_fail, try_catch.
  pose proof (build_agent_exports k sb) as H.
  destruct (build_agent W k sb) as [[h|e] s1]; cbn [snd] in *; [exact H|].
  unfold bind, console, modify, throw. exact H.
Qed.

End ColdStart.

(** ** What is loaded stays loaded *)

Section Provisioned.

Variable W : World.

Lemma stable_bind {A B} (P : State -> Prop) (c : M A) (k : A -> M B) :
  stable P c -> (forall a, stable P (k a)) -> stable P (bind c k).
Proof.
  intros Hc Hk st Hst. unfold bind. specialize (Hc st Hst).
  destruct (c st) as [[a|e] st1]; cbn [snd] in *; [|exact Hc].
  exact (Hk a st1 Hc).
Qed.

Lemma stable_of_keeps {A} (c : nat) (m : M A) :
  keeps mastraModules m -> keeps mcpClient m -> stable (provisioned c) m.
Proof.
  intros Hm Hc st [P1 P2]. split; [now rewrite Hm | now rewrite Hc].
Qed.

Lemma stable_load (c : nat) : stable (provisioned c) (loadMastraModules W).
Proof.
  intros st [P1 P2]. unfold loadMastraModules, bind, get. rewrite P1. now split.
Qed.

Lemma stable_client (c : nat) : stable (provisioned c) (ensure_client W).
Proof.
  intros st [P1 P2]. unfold ensure_client, bind, get, when. rewrite P2. now split.
Qed.

Lemma stable_build_agent (c : nat) (k : JsVal) : stable (provisioned c) (build_agent W k).
Proof.
  unfold build_agent.
  apply stable_bind; [intros st [P1 P2]; now split|intros _].
  apply stable_bind; [apply stable_load|intros _].
  apply stable_bind; [apply stable_client|intros _].
  apply stable_bind;
    [apply stable_of_keeps; [apply tools_keep_modules | apply tools_keep_client]|intros ts].
  apply stable_bind;
    [apply stable_of_keeps; [apply memory_keeps_modules | apply memory_keeps_client]|intros m].
  apply stable_of_keeps; [apply agent_keeps_modules | apply agent_keeps_client].
Qed.

Lemma stable_build_or_fail (c : nat) (k : JsVal) :
  stable (provisioned c) (build_or_fail W k).
Proof.
  intros st Hst. unfold build_or_fail, try_catch.
  pose proof (stable_build_agent c k st Hst) as H.
  destruct (build_agent W k st) as [[h|e] s1]; cbn [snd] in *; [exact H|].
  unfold bind, console, modify, throw. exact H.
Qed.

Lemma stable_initialize (c : nat) (k : JsVal) :
  stable (provisioned c) (initializeTeachingAssistant W k).
Proof.
  intros st Hst.
  destruct (previewable k) eqn:Hp.
  - destruct (cached_for st k) eqn:Hc.
    + unfold cached_for in Hc. apply andb_true_iff in Hc as [Ha Hk].
      destruct (teachingAssistantAgent st) as [a|] eqn:Hag; [|discriminate].
      apply previewable_preview in Hp as [p Hp].
      rewrite (init_reuse _ _ _ _ _ Hp Hag Hk). exact Hst.
    + destruct (init_enters_build W k st Hp Hc)
        as (sb & t0 & E & _ & _ & _ & _ & Hm & Hcl & _).
      rewrite E. apply stable_build_or_fail.
      destruct Hst as [P1 P2]. split; congruence.
  - assert (E : exists e, initializeTeachingAssistant W k st = (Throw e, st)).
    { unfold initializeTeachingAssistant. unfold bind at 1. unfold lift.
      destruct (key_preview k) as [p|e] eqn:Hk; [|eauto].
      assert (previewable k = true) by (apply previewable_preview; eauto). congruence. }
    destruct E as [e ->]. exact Hst.
Qed.

Lemma stable_stream (c : nat) (messages : list Message) (options : StreamOptions) :
  stable (provisioned c) (createMastraStream W messages options).
Proof.
  intros st [P1 P2].
  destruct (stream_frame W messages options st) as (_ & _ & H3 & H4 & _).
  split; congruence.
Qed.

(** X19. What is loaded stays loaded: once the modules are loaded and an
    MCP client exists, no sequence of calls of the exported operations,
    whatever their arguments and outcomes, unloads the modules or
    replaces the client; every later build uses that same client. *)
Theorem modules_and_client_are_kept (c : nat) (st st' : State) :
  mastraModules st = true ->
  mcpClient st = Some c ->
  called W st st' ->
  mastraModules st' = true /\ mcpClient st' = Some c.
Proof.
  intros Hm Hc Hcalls.
  induction Hcalls as [|k st' _ IH|messages options st' _ IH|k st' _ IH
                       |config messages st' _ IH].
  - now split.
  - now apply stable_initialize.
  - now apply stable_stream.
  - destruct IH as [I1 I2]. split.
    + now rewrite validate_keeps_modules.
    + now rewrite validate_keeps_client.
  - rewrite chat_unfold.
    destruct (teachingAssistantAgent st') eqn:Ha.
    + now apply stable_stream.
    + pose proof (stable_initialize c (cfg_apiKey config) st' IH) as Hi.
      destruct (initializeTeachingAssistant W (cfg_apiKey config) st') as [[h|e] s1];
        cbn [snd] in *; [now apply stable_stream | exact Hi].
Qed.

End Provisioned.

(** ** The further properties at work on concrete runs *)

Lemma generation_answer_becomes_stream_witness :
  createMastraStream world_answering question no_options ready_a
  = (Ok {| body := delivering (build_chunks response_with_tool) 1 |},
     record (EGenerate (agent_ref agent_a) question
               (generation_options world_answering ready_a no_options))
            (record_all (request_lines ready_a question) ready_a)).
Proof.
  apply (generation_answer_becomes_stream world_answering question no_options ready_a
           agent_a response_with_tool).
  - vm_compute. reflexivity.
  - discriminate.
  - reflexivity.
  - reflexivity.
Defined.

Lemma generation_error_is_rethrown_witness :
  createMastraStream world_rate_limited question no_options ready_a
  = (Throw rate_limited,
     record (stream_error_line rate_limited)
       (record (EGenerate (agent_ref agent_a) question
                  (generation_options world_rate_limited ready_a no_options))
               (record_all (request_lines ready_a question) ready_a)))
  /\ teachingAssistantAgent
       (snd (createMastraStream world_rate_limited question no_options ready_a))
     = Some agent_a
  /\ currentApiKey (snd (createMastraStream world_rate_limited question no_options ready_a))
     = currentApiKey ready_a.
Proof.
  apply (generation_error_is_rethrown world_rate_limited question no_options ready_a
           agent_a rate_limited).
  - vm_compute. reflexivity.
  - discriminate.
  - reflexivity.
  - reflexivity.
Defined.

Lemma empty_conversation_is_a_type_error_witness :
  exists e,
    err_name e = "TypeError"
    /\ createMastraStream world_with_tools [] no_options ready_a
       = (Throw e,
          record (stream_error_line e)
                 (record agent_line (record (key_line ready_a) ready_a)))
    /\ filter generate_event
         (trace (snd (createMastraStream world_with_tools [] no_options ready_a)))
       = filter generate_event (trace ready_a)
    /\ teachingAssistantAgent (snd (createMastraStream world_with_tools [] no_options ready_a))
       = Some agent_a.
Proof.
  apply (empty_conversation_is_a_type_error world_with_tools no_options ready_a agent_a).
  vm_compute. reflexivity.
Defined.

Lemma falsy_credential_blocks_generation_witness :
  createMastraStream world_with_tools question no_options ready_empty
  = (Throw no_api_key,
     record (stream_error_line no_api_key)
            (record_all (request_lines ready_empty question) ready_empty))
  /\ filter generate_event
       (trace (snd (createMastraStream world_with_tools question no_options ready_empty)))
     = filter generate_event (trace ready_empty).
Proof.
  apply (falsy_credential_blocks_generation world_with_tools (JStr EmptyString) initial
           ready_empty agent_empty question no_options).
  - vm_compute. reflexivity.
  - reflexivity.
  - discriminate.
Defined.

Lemma validation_success_is_earned_witness :
  error {| success := true; error := JUndefined |} = JUndefined
  /\ (exists s, key_a = JStr s /\ startsWith s "sk-" = true)
  /\ exists r, fetch world_with_tools (trace initial) models_url ("Bearer " ++ to_string key_a)
               = Ok r
               /\ ok r = true.
Proof.
  apply (proj1 (validation_success_is_earned world_with_tools key_a initial
                  (snd (validateApiKey world_with_tools key_a initial))
                  {| success := true; error := JUndefined |} eq_refl)).
  reflexivity.
Defined.

Lemma rejected_key_message_witness :
  fst (validateApiKey world_unauthorized key_a initial)
  = Ok {| success := false; error := JStr "Incorrect API key provided" |}
  /\ fst (validateApiKey world_bad_gateway key_a initial)
     = Ok {| success := false; error := JStr "Validation failed with status: 502" |}
  /\ fst (validateApiKey world_null_answer key_a initial) = Ok network_failure.
Proof.
  split; [|split].
  - apply (proj1 (rejected_key_message world_unauthorized "sk-aaaaaaaa" initial unauthorized
                    eq_refl eq_refl eq_refl)
             (JObj [("error", JObj [("message", JStr "Incorrect API key provided")])])
             (JObj [("message", JStr "Incorrect API key provided")]));
      reflexivity.
  - apply (proj1 (proj2 (rejected_key_message world_bad_gateway "sk-aaaaaaaa" initial
                           bad_gateway eq_refl eq_refl eq_refl))
             (Error "Unexpected token < in JSON")).
    reflexivity.
  - apply (proj2 (proj2 (rejected_key_message world_null_answer "sk-aaaaaaaa" initial
                           null_answer eq_refl eq_refl eq_refl))).
    reflexivity.
Defined.

Lemma non_string_credential_is_a_type_error_witness :
  exists e,
    err_name e = "TypeError"
    /\ initializeTeachingAssistant world_with_tools (JNum 42) ready_a = (Throw e, ready_a).
Proof.
  apply (non_string_credential_is_a_type_error world_with_tools (JNum 42) ready_a);
    reflexivity.
Defined.

Lemma build_follows_a_fixed_course_witness :
  mastraModules ready_without_tools = true
  /\ is_some (mcpClient ready_without_tools) = true
  /\ exists before answer after,
       trace ready_without_tools
       = (trace initial ++ before ++ EGetTools :: answer :: after)%list
       /\ filter build_event before = provisioning initial
       /\ tools_answer world_without_tools (trace initial ++ before)%list
            agent_without_tools answer
       /\ filter build_event after
          = storage_and_agent world_without_tools
              (trace initial ++ before ++ [EGetTools; answer])%list key_a
              agent_without_tools.
Proof.
  apply (build_follows_a_fixed_course world_without_tools key_a initial
           ready_without_tools agent_without_tools).
  - vm_compute. reflexivity.
  - reflexivity.
Defined.

Lemma failed_initialisation_empties_cache_witness :
  teachingAssistantAgent ready_a = Some agent_a
  /\ teachingAssistantAgent failed_b = None
  /\ currentApiKey failed_b
     = (if is_some (teachingAssistantAgent ready_a) then JNull else currentApiKey ready_a)
  /\ (exists t, trace failed_b = (t ++ [failure_line bad_model])%list)
  /\ forall messages options,
       fst (createMastraStream world_agent_fails messages options failed_b)
       = Throw not_initialized.
Proof.
  split; [vm_compute; reflexivity|].
  apply (failed_initialisation_empties_cache world_agent_fails key_b ready_a failed_b
           bad_model).
  - vm_compute. reflexivity.
  - reflexivity.
Defined.

Lemma cache_is_coherent_witness : settled ready_b.
Proof.
  apply (cache_is_coherent world_with_tools ready_b).
  apply reach_initialize, reach_stream, reach_initialize, reach_initial.
Defined.

Lemma rotation_keeps_modules_and_client_witness :
  exists before answer after,
    trace ready_b = (trace answered_a ++ before ++ EGetTools :: answer :: after)%list
    /\ filter build_event before = []
    /\ tools_answer world_with_tools (trace answered_a ++ before)%list agent_b answer
    /\ filter build_event after
       = storage_and_agent world_with_tools
           (trace answered_a ++ before ++ [EGetTools; answer])%list key_b agent_b.
Proof.
  apply (rotation_keeps_modules_and_client world_with_tools key_a key_b
           initial ready_a answered_a ready_b agent_a agent_b).
  - reflexivity.
  - discriminate.
  - vm_compute. reflexivity.
  - apply served_stream, served_here.
  - vm_compute. reflexivity.
Defined.

Lemma serving_only_writes_the_trace_witness :
  teachingAssistantAgent answered_a = Some agent_a
  /\ currentApiKey answered_a = currentApiKey ready_a
  /\ mastraModules answered_a = mastraModules ready_a
  /\ mcpClient answered_a = mcpClient ready_a
  /\ OPENAI_API_KEY answered_a = OPENAI_API_KEY ready_a
  /\ exists t, trace answered_a = (trace ready_a ++ t)%list /\ filter build_event t = [].
Proof.
  apply (serving_only_writes_the_trace world_with_tools ready_a answered_a agent_a).
  - vm_compute. reflexivity.
  - apply served_stream, served_here.
Defined.

Lemma module_load_is_cached_on_success_only_witness :
  import_modules world_import_fails (trace initial) = Throw no_network
  /\ snd (loadMastraModules world_import_fails initial)
     = record (load_failure_line no_network) (record EImportModules initial)
  /\ mastraModules (snd (loadMastraModules world_import_fails initial)) = false
  /\ exists t,
       trace (snd (loadMastraModules world_import_fails
                     (snd (loadMastraModules world_import_fails initial))))
       = (trace (snd (loadMastraModules world_import_fails initial))
            ++ EImportModules :: t)%list.
Proof.
  exact (module_load_is_cached_on_success_only world_import_fails initial
           (snd (loadMastraModules world_import_fails initial)) (Throw no_network) eq_refl).
Defined.

Lemma cold_chat_initialises_first_witness :
  streamChat (createStreamingLLM world_with_tools config_a) question initial
  = createMastraStream world_with_tools question (stream_options config_a) ready_a
  /\ In (EGenerate (agent_ref agent_a) question
           (generation_options world_with_tools ready_a (stream_options config_a)))
        (trace (snd (streamChat (createStreamingLLM world_with_tools config_a)
                       question initial)))
  /\ gen_apiKey (generation_options world_with_tools ready_a (stream_options config_a))
     = cfg_apiKey config_a.
Proof.
  pose proof (cold_chat_initialises_first world_with_tools config_a question initial eq_refl)
    as H.
  change (initializeTeachingAssistant world_with_tools (cfg_apiKey config_a) initial)
    with (initializeTeachingAssistant world_with_tools key_a initial) in H.
  replace (initializeTeachingAssistant world_with_tools key_a initial)
    with (Ok agent_a, ready_a) in H by (vm_compute; reflexivity).
  destruct H as (E & _ & _ & G). split; [exact E|].
  apply G; [discriminate | reflexivity].
Defined.

Lemma build_exports_the_credential_witness :
  OPENAI_API_KEY (snd (initializeTeachingAssistant world_agent_fails JUndefined initial))
  = Some "undefined".
Proof.
  apply (build_exports_the_credential world_agent_fails JUndefined initial); reflexivity.
Defined.

Lemma modules_and_client_are_kept_witness :
  mastraModules ready_b = true /\ mcpClient ready_b = Some 0.
Proof.
  apply (modules_and_client_are_kept world_with_tools 0 ready_a ready_b).
  - reflexivity.
  - reflexivity.
  - apply called_initialize, called_stream, called_here.
Defined.
